(** * Passbolt browser extension: OpenPGP assertions and private key decryption

    A shallow embedding of
    [src/all/background_page/utils/openpgp/openpgpAssertions.js] and
    [src/all/background_page/service/crypto/decryptPrivateKeyService.js],
    with the properties their specification states about them. *)

From Stdlib Require Import ZArith Ascii String List Bool Lia.
From stdpp Require Import base option list strings gmap.

Local Open Scope string_scope.
Set Warnings "-register-all".

(** ** JavaScript values *)

Module Js.

(** Objects built by the openpgp.js library.  [PrivateKey] extends
    [PublicKey] in the library, and [isPrivate] is a method of the class:
    [PublicKey.prototype.isPrivate] returns [false] and [PrivateKey] overrides
    it to return [true]. *)
Inductive Key :=
| PublicKey (armored : string)
| PrivateKey (armored : string) (decrypted : bool).

(** A packet of a message: its tag in [openpgp.enums.packet] and its
    [encrypted] property, [None] standing for JavaScript's [null]. *)
Record Packet := mkPacket {
  packet_tag : Z;
  packet_encrypted : option (list Z)
}.

(** The values the two modules receive.  Of a number only its type is
    observed; the characters of a string are those of [ascii]; objects are
    plain objects, typed arrays and the instances of the library's
    classes. *)
Inductive Value :=
| Undefined
| Null
| Boolean (b : bool)
| Number (n : Z)
| String (s : string)
| Array (items : list Value)
| Object (props : gmap string Value)
| Uint8Array (bytes : list Z)
| KeyObject (k : Key)
| Message (packets : list Packet)
| CleartextMessage (text : string).

(** Thrown values.  [Error] and [TypeError] are the built-in classes, the
    optional [cause] being the second argument of the constructor;
    [InvalidMasterPasswordError] is the class of
    [error/invalidMasterPasswordError]; [PassphraseValidationError] is the
    kind of error the specification gives to a rejected passphrase. *)
Inductive Exception :=
| Error (message : string) (cause : option Exception)
| TypeError (message : string)
| PassphraseValidationError (message : string)
| InvalidMasterPasswordError (message : string).

(** The result of running a synchronous function body. *)
Inductive Completion (A : Type) :=
| Normal (a : A)
| Throw (e : Exception).
Arguments Normal {A} a.
Arguments Throw {A} e.

(** The settled state of a promise. *)
Inductive Promise (A : Type) :=
| Resolved (a : A)
| Rejected (e : Exception).
Arguments Resolved {A} a.
Arguments Rejected {A} e.

Definition bind {A B} (c : Completion A) (k : A -> Completion B) : Completion B :=
  match c with
  | Normal a => k a
  | Throw e => Throw e
  end.

(** [try { body } catch (error) { handler }] *)
Definition try_catch {A} (body : Completion A) (handler : Exception -> Completion A)
  : Completion A :=
  match body with
  | Normal a => Normal a
  | Throw e => handler e
  end.

(** [await p] inside an async function. *)
Definition await {A} (p : Promise A) : Completion A :=
  match p with
  | Resolved a => Normal a
  | Rejected e => Throw e
  end.

(** The promise an async function returns for a body that completed. *)
Definition async {A} (body : Completion A) : Promise A :=
  match body with
  | Normal a => Resolved a
  | Throw e => Rejected e
  end.

(** What a caller may hand to a function: a value, or a promise (any
    thenable), which is given by the state it settles in.  A thenable is an
    object like another for a function that tests or reads its argument; it
    differs where the argument is handed back by an async function. *)
Inductive Argument :=
| Plain (v : Value)
| Thenable (settled : Promise Value).

(** The promise resolved with [a], as by [return a] in an async function:
    fulfilled with a plain value, following a thenable. *)
Definition Promise_resolve (a : Argument) : Promise Value :=
  match a with
  | Plain v => Resolved v
  | Thenable settled => settled
  end.

(** An async function that returns a promise settles as that promise does. *)
Definition async_return {A} (body : Completion (Promise A)) : Promise A :=
  match body with
  | Normal p => p
  | Throw e => Rejected e
  end.

(** [Promise.all(ps)]: the array of all the values in the order of [ps], or
    the rejection of a rejected promise, here the one of least index. *)
Fixpoint Promise_all (ps : list (Promise Value)) : Promise Value :=
  match ps with
  | [] => Resolved (Array [])
  | Resolved a :: ps' =>
      match Promise_all ps' with
      | Resolved (Array l) => Resolved (Array (a :: l))
      | other => other
      end
  | Rejected e :: _ => Rejected e
  end.

(** The elements of an array. *)
Definition elements (v : Value) : list Value :=
  match v with Array items => items | _ => [] end.

(** [parts[i]] on an array of strings. *)
Definition index (parts : list string) (i : nat) : Value :=
  match parts !! i with Some s => String s | None => Undefined end.

(** [typeof v] *)
Definition typeof (v : Value) : string :=
  match v with
  | Undefined => "undefined"
  | Boolean _ => "boolean"
  | Number _ => "number"
  | String _ => "string"
  | _ => "object"
  end.

(** [Array.isArray(v)] *)
Definition isArray (v : Value) : bool :=
  match v with Array _ => true | _ => false end.

(** [Object.prototype.toString.call(v)] *)
Definition toStringTag (v : Value) : string :=
  match v with
  | Undefined => "[object Undefined]"
  | Null => "[object Null]"
  | Boolean _ => "[object Boolean]"
  | Number _ => "[object Number]"
  | String _ => "[object String]"
  | Array _ => "[object Array]"
  | Uint8Array _ => "[object Uint8Array]"
  | Object _ | KeyObject _ | Message _ | CleartextMessage _ => "[object Object]"
  end.

(** [v.name] on a value that passed the [toStringTag] test: own properties of
    a plain object; the library's objects have no [data] or [algorithm]. *)
Definition get (v : Value) (name : string) : Value :=
  match v with
  | Object props => default Undefined (props !! name)
  | _ => Undefined
  end.

(** [v instanceof Uint8Array] *)
Definition instanceof_Uint8Array (v : Value) : bool :=
  match v with Uint8Array _ => true | _ => false end.

(** [v === s] for a string literal [s] *)
Definition strict_eq_string (v : Value) (s : string) : bool :=
  match v with String s' => bool_decide (s' = s) | _ => false end.

End Js.

Coercion Js.Plain : Js.Value >-> Js.Argument.

(** Sequencing of statements that may throw. *)
Notation "'let*' x ':=' c 'in' k" := (Js.bind c (fun x => k))
  (at level 10, x name, c at level 100, k at level 200).
Notation "'do*' c 'in' k" := (Js.bind c (fun _ => k))
  (at level 10, c at level 100, k at level 200).

(** ** Regular expressions

    The fragment of ECMAScript patterns that [readSessionKeyOrFail] uses,
    matched as the language standard describes it: a matcher takes the input
    that is left and a continuation, and quantifiers are greedy. *)

Module RegExp.

Inductive Pattern :=
| AssertStart                                     (* ^ *)
| AssertEnd                                       (* $ *)
| Char (c : ascii)                                (* a literal character *)
| Class (ranges : list (ascii * ascii))           (* [a-b...], \d *)
| Seq (p q : Pattern)
| Repeat (p : Pattern) (min max : nat).           (* p{min,max} *)

(** Canonicalize of the standard under the [i] flag: the upper case of a
    character. *)
Definition toUpperCase (c : ascii) : ascii :=
  let n := nat_of_ascii c in
  if (97 <=? n)%nat && (n <=? 122)%nat then ascii_of_nat (n - 32) else c.

Definition canonicalize (ignoreCase : bool) (c : ascii) : ascii :=
  if ignoreCase then toUpperCase c else c.

(** The characters of the range [lo-hi]. *)
Definition range_chars (r : ascii * ascii) : list ascii :=
  map (fun k => ascii_of_nat (nat_of_ascii (fst r) + k))
      (seq 0 (S (nat_of_ascii (snd r)) - nat_of_ascii (fst r))).

(** A character matches a class when some member of the class has the same
    canonical form. *)
Definition class_matches (ignoreCase : bool) (ranges : list (ascii * ascii))
    (c : ascii) : bool :=
  existsb (fun a => Ascii.eqb (canonicalize ignoreCase a) (canonicalize ignoreCase c))
          (concat (map range_chars ranges)).

Definition Continuation := nat -> list ascii -> bool.

(** [matcher i p pos input k]: [p] matches a prefix of [input], which starts
    at index [pos] of the whole string, and [k] accepts what follows. *)
Fixpoint matcher (i : bool) (p : Pattern) (pos : nat) (input : list ascii)
    (k : Continuation) {struct p} : bool :=
  match p with
  | AssertStart => Nat.eqb pos 0 && k pos input
  | AssertEnd => match input with [] => k pos input | _ => false end
  | Char c =>
      match input with
      | a :: rest => Ascii.eqb (canonicalize i c) (canonicalize i a) && k (S pos) rest
      | [] => false
      end
  | Class ranges =>
      match input with
      | a :: rest => class_matches i ranges a && k (S pos) rest
      | [] => false
      end
  | Seq p1 p2 => matcher i p1 pos input (fun pos' rest => matcher i p2 pos' rest k)
  | Repeat p1 min max =>
      (fix rep (min max pos : nat) (input : list ascii) {struct max} : bool :=
         match max with
         | O => match min with O => k pos input | S _ => false end
         | S max' =>
             matcher i p1 pos input (fun pos' rest => rep (Nat.pred min) max' pos' rest)
             || match min with O => k pos input | S _ => false end
         end) min max pos input
  end.

(** The first index at or after [pos] where the pattern matches. *)
Fixpoint search (i : bool) (p : Pattern) (pos : nat) (input : list ascii) : bool :=
  matcher i p pos input (fun _ _ => true)
  || match input with
     | [] => false
     | _ :: rest => search i p (S pos) rest
     end.

(** [/p/.test(s)] and [/p/i.test(s)] *)
Definition test (i : bool) (p : Pattern) (s : string) : bool :=
  search i p 0 (list_ascii_of_string s).

Definition digit : Pattern := Class [("0", "9")]%char.

End RegExp.

(** ** Helpers imported by the two modules *)

Module StringOps.

(** The pieces of a sequence of characters between the occurrences of
    [sep]. *)
Fixpoint split_chars (sep : ascii) (cs : list ascii) : list (list ascii) :=
  match cs with
  | [] => [[]]
  | c :: rest =>
      if Ascii.eqb c sep then [] :: split_chars sep rest
      else match split_chars sep rest with
           | w :: ws => (c :: w) :: ws
           | [] => [[c]]
           end
  end.

(** [s.split(sep)] for a separator of one character. *)
Definition split (sep : ascii) (s : string) : list string :=
  map string_of_list_ascii (split_chars sep (list_ascii_of_string s)).

End StringOps.

Module Assertions.

(** Modelled from the spec: [assertNonEmptyString] of [utils/assertions] is
    imported by [openpgpAssertions.js] and is not among the sources.  The
    specification of [readSessionKeyOrFail] has it fail with a format error,
    carrying the message it is given, when the value is empty or not a
    string. *)
Definition assertNonEmptyString (data : Js.Value) (errorMessage : string)
  : Js.Completion unit :=
  match data with
  | Js.String s =>
      if bool_decide (s = EmptyString) then Js.Throw (Js.TypeError errorMessage)
      else Js.Normal tt
  | _ => Js.Throw (Js.TypeError errorMessage)
  end.

(** Modelled from the spec: [assertPassphrase] of [utils/assertions] is
    imported by [decryptPrivateKeyService.js] and is not among the sources.
    The specification has it accept a non-empty string and fail with a
    passphrase-validation error when the passphrase is missing, empty or not
    a string. *)
Definition assertPassphrase (passphrase : Js.Value) : Js.Completion unit :=
  match passphrase with
  | Js.String s =>
      if bool_decide (s = EmptyString)
      then Js.Throw (Js.PassphraseValidationError "This is not a valid passphrase")
      else Js.Normal tt
  | _ => Js.Throw (Js.PassphraseValidationError "This is not a valid passphrase")
  end.

End Assertions.

Module Uint8ArrayConvert.

Definition hex_value (c : ascii) : Z :=
  let n := Z.of_nat (nat_of_ascii c) in
  if (48 <=? n)%Z && (n <=? 57)%Z then n - 48
  else if (65 <=? n)%Z && (n <=? 70)%Z then n - 55
  else if (97 <=? n)%Z && (n <=? 102)%Z then n - 87
  else 0.

Fixpoint hex_bytes (cs : list ascii) : list Z :=
  match cs with
  | hi :: lo :: rest => (16 * hex_value hi + hex_value lo)%Z :: hex_bytes rest
  | _ => []
  end.

(** Modelled from the spec: [Uint8ArrayConvert.fromHex] of
    [utils/format/uint8ArrayConvert] is not among the sources.  The
    specification has it decode the hexadecimal payload, two characters a
    byte, so that 64 characters give 32 bytes; reading a property of a value
    that is not a string is a [TypeError]. *)
Definition fromHex (hex : Js.Value) : Js.Completion Js.Value :=
  match hex with
  | Js.String s => Js.Normal (Js.Uint8Array (hex_bytes (list_ascii_of_string s)))
  | _ => Js.Throw (Js.TypeError "Cannot read properties of undefined (reading 'length')")
  end.

End Uint8ArrayConvert.

(** ** [utils/openpgp/openpgpAssertions.js] *)

Module OpenpgpAssertion.

(** [openpgp.enums.packet.publicKeyEncryptedSessionKey] *)
Definition publicKeyEncryptedSessionKey : Z := 1.

(** [/^\d{1,2}:[0-9A-F]{64}$/i] *)
Definition sessionKeyPattern : RegExp.Pattern :=
  RegExp.Seq RegExp.AssertStart
    (RegExp.Seq (RegExp.Repeat RegExp.digit 1 2)
      (RegExp.Seq (RegExp.Char ":")
        (RegExp.Seq (RegExp.Repeat (RegExp.Class [("0", "9"); ("A", "F")]%char) 64 64)
          RegExp.AssertEnd))).

(** The message ['The parameter session key does not match the expected
    format "integer:hexadecimal-string".'], with its double quotes. *)
Definition sessionKeyFormatMessage : string :=
  let quote := String (ascii_of_nat 34) EmptyString in
  "The parameter session key does not match the expected format "
  ++ quote ++ "integer:hexadecimal-string" ++ quote ++ ".".

(** [key instanceof openpgp.PublicKey]: a private key is one too. *)
Definition instanceof_PublicKey (key : Js.Value) : bool :=
  match key with Js.KeyObject _ => true | _ => false end.

(** [key instanceof openpgp.PrivateKey] *)
Definition instanceof_PrivateKey (key : Js.Value) : bool :=
  match key with Js.KeyObject (Js.PrivateKey _ _) => true | _ => false end.

(** [message instanceof openpgp.Message] *)
Definition instanceof_Message (message : Js.Value) : bool :=
  match message with Js.Message _ => true | _ => false end.

(** [message instanceof openpgp.CleartextMessage] *)
Definition instanceof_CleartextMessage (message : Js.Value) : bool :=
  match message with Js.CleartextMessage _ => true | _ => false end.

(** [key.isPrivate()], called on instances of [openpgp.PublicKey] only. *)
Definition isPrivate (key : Js.Value) : bool :=
  match key with
  | Js.KeyObject (Js.PrivateKey _ _) => true
  | _ => false
  end.

(** [key.isDecrypted()], a method of [openpgp.PrivateKey]. *)
Definition isDecrypted (key : Js.Value) : Js.Completion bool :=
  match key with
  | Js.KeyObject (Js.PrivateKey _ decrypted) => Js.Normal decrypted
  | _ => Js.Throw (Js.TypeError "key.isDecrypted is not a function")
  end.

(** [message.packets.findPacket(tag)]: the first packet of that tag, [None]
    for [undefined]. *)
Definition findPacket (message : Js.Value) (tag : Z) : option Js.Packet :=
  match message with
  | Js.Message packets =>
      List.find (fun packet => Z.eqb (Js.packet_tag packet) tag) packets
  | _ => None
  end.

(** The loop [for (let i = 0; i < keys.length; i++) { body(keys[i]); }],
    run for at most [n] iterations from index [i], with the indices at which
    [body] was called. *)
Fixpoint for_loop (body : Js.Value -> Js.Completion unit) (keys : list Js.Value)
    (n i : nat) : list nat * Js.Completion unit :=
  match n with
  | O => ([], Js.Normal tt)
  | S n' =>
      match keys !! i with
      | None => ([], Js.Normal tt)
      | Some key =>
          match body key with
          | Js.Throw e => ([i], Js.Throw e)
          | Js.Normal _ =>
              let (visited, result) := for_loop body keys n' (S i) in
              (i :: visited, result)
          end
      end
  end.

(** The loop over the whole array: [keys.length] iterations at most. *)
Definition for_each (body : Js.Value -> Js.Completion unit) (keys : Js.Value)
  : list nat * Js.Completion unit :=
  for_loop body (Js.elements keys) (length (Js.elements keys)) 0.

Section WithCollaborators.

(** [i18n.t], the localisation of a message template. *)
Variable t : string -> string.

(** The parsers and constructors of the openpgp.js library. *)
Variable openpgp_readKey : Js.Value -> Js.Promise Js.Key.
Variable openpgp_readMessage : Js.Value -> Js.Promise (list Js.Packet).
Variable openpgp_readCleartextMessage : Js.Value -> Js.Promise string.
Variable openpgp_createMessage : Js.Value -> Js.Promise (list Js.Packet).
Variable openpgp_createCleartextMessage : Js.Value -> Js.Promise string.

(** [openpgp.enums.read(openpgp.enums.symmetric, e)]: the name of the cipher
    of identifier [e], or an error when there is none. *)
Variable openpgp_enums_read_symmetric : Js.Value -> Js.Completion string.

Definition readKeyOrFail (armoredKey : Js.Value) : Js.Promise Js.Value :=
  Js.async
    (if negb (String.eqb (Js.typeof armoredKey) "string") then
       Js.Throw (Js.Error (t "The key should be a valid openpgp armored key string.") None)
     else
       Js.try_catch
         (let* key := Js.await (openpgp_readKey armoredKey) in
          Js.Normal (Js.KeyObject key))
         (fun error =>
            Js.Throw (Js.Error (t "The key should be a valid openpgp armored key string.") None))).

Definition readAllKeysOrFail (armoredKeys : Js.Value) : Js.Promise Js.Value :=
  Js.async_return
    (if negb (Js.isArray armoredKeys) then
       Js.Throw (Js.Error (t "The keys should be an array of valid openpgp armored key strings.") None)
     else
       Js.Normal (Js.Promise_all (map (fun key => readKeyOrFail key) (Js.elements armoredKeys)))).

(** After [assertNonEmptyString] the session key is a string, whose
    characters the regular expression and [split] read; the last branch is
    never taken. *)
Definition readSessionKeyOrFail (sessionKey : Js.Value) : Js.Completion Js.Value :=
  do* Assertions.assertNonEmptyString sessionKey "The session key should be a string." in
  match sessionKey with
  | Js.String text =>
      if negb (RegExp.test true sessionKeyPattern text) then
        Js.Throw (Js.TypeError sessionKeyFormatMessage)
      else
        Js.try_catch
          (let sessionKeySplit := StringOps.split ":" text in
           let* algorithm := openpgp_enums_read_symmetric (Js.index sessionKeySplit 0) in
           let* data := Uint8ArrayConvert.fromHex (Js.index sessionKeySplit 1) in
           Js.Normal (Js.Object {[ "data" := data; "algorithm" := Js.String algorithm ]}))
          (fun error =>
             Js.Throw (Js.Error "The session key should be a valid openpgp session key."
                                (Some error)))
  | _ => Js.Throw (Js.TypeError "The session key should be a string.")
  end.

Definition createMessageOrFail (message : Js.Value) : Js.Promise Js.Value :=
  Js.async
    (if negb (String.eqb (Js.typeof message) "string") then
       Js.Throw (Js.Error (t "The message should be of type string.") None)
     else
       let* packets := Js.await (openpgp_createMessage message) in
       Js.Normal (Js.Message packets)).

Definition createCleartextMessageOrFail (text : Js.Value) : Js.Promise Js.Value :=
  Js.async
    (if negb (String.eqb (Js.typeof text) "string") then
       Js.Throw (Js.Error (t "The message should be of type string.") None)
     else
       let* cleartext := Js.await (openpgp_createCleartextMessage text) in
       Js.Normal (Js.CleartextMessage cleartext)).

Definition readMessageOrFail (message : Js.Value) : Js.Promise Js.Value :=
  Js.async
    (if negb (String.eqb (Js.typeof message) "string") then
       Js.Throw (Js.Error (t "The message should be of type string.") None)
     else
       Js.try_catch
         (let* packets := Js.await (openpgp_readMessage message) in
          Js.Normal (Js.Message packets))
         (fun error =>
            Js.Throw (Js.Error (t "The message should be a valid openpgp message.") None))).

Definition readClearMessageOrFail (cleartextMessage : Js.Value) : Js.Promise Js.Value :=
  Js.async
    (if negb (String.eqb (Js.typeof cleartextMessage) "string") then
       Js.Throw (Js.Error (t "The message should be of type string.") None)
     else
       Js.try_catch
         (let* cleartext := Js.await (openpgp_readCleartextMessage cleartextMessage) in
          Js.Normal (Js.CleartextMessage cleartext))
         (fun error =>
            Js.Throw (Js.Error (t "The message should be a valid openpgp message.") None))).

Definition assertKey (key : Js.Value) : Js.Completion unit :=
  if negb (instanceof_PublicKey key) && negb (instanceof_PrivateKey key) then
    Js.Throw (Js.Error (t "The key should be a valid openpgp key.") None)
  else Js.Normal tt.

Definition assertKeys (keys : Js.Value) : list nat * Js.Completion unit :=
  if negb (Js.isArray keys) then
    ([], Js.Throw (Js.Error (t "The keys should be an array.") None))
  else for_each assertKey keys.

Definition assertPublicKey (key : Js.Value) : Js.Completion unit :=
  if negb (instanceof_PublicKey key) || (instanceof_PublicKey key && isPrivate key) then
    Js.Throw (Js.Error (t "The key should be a valid openpgp public key.") None)
  else Js.Normal tt.

Definition assertPublicKeys (keys : Js.Value) : list nat * Js.Completion unit :=
  if negb (Js.isArray keys) then
    ([], Js.Throw (Js.Error (t "The keys should be an array of valid openpgp public keys.") None))
  else for_each assertPublicKey keys.

Definition assertPrivateKey (key : Js.Value) : Js.Completion unit :=
  if negb (instanceof_PrivateKey key) || (instanceof_PrivateKey key && negb (isPrivate key)) then
    Js.Throw (Js.Error (t "The key should be a valid openpgp private key.") None)
  else Js.Normal tt.

Definition assertPrivateKeys (keys : Js.Value) : list nat * Js.Completion unit :=
  if negb (Js.isArray keys) then
    ([], Js.Throw (Js.Error (t "The keys should be an array of valid openpgp private keys.") None))
  else for_each assertPrivateKey keys.

Definition assertDecryptedPrivateKey (key : Js.Value) : Js.Completion unit :=
  do* assertPrivateKey key in
  let* decrypted := isDecrypted key in
  if negb decrypted then
    Js.Throw (Js.Error (t "The private key should be decrypted.") None)
  else Js.Normal tt.

Definition assertDecryptedPrivateKeys (keys : Js.Value) : list nat * Js.Completion unit :=
  if negb (Js.isArray keys) then
    ([], Js.Throw (Js.Error
           (t "The keys should be an array of valid decrypted openpgp private keys.") None))
  else for_each assertDecryptedPrivateKey keys.

Definition assertEncryptedPrivateKey (key : Js.Value) : Js.Completion unit :=
  do* assertPrivateKey key in
  let* decrypted := isDecrypted key in
  if decrypted then
    Js.Throw (Js.Error (t "The private key should be encrypted.") None)
  else Js.Normal tt.

Definition assertEncryptedPrivateKeys (keys : Js.Value) : list nat * Js.Completion unit :=
  if negb (Js.isArray keys) then
    ([], Js.Throw (Js.Error
           (t "The keys should be an array of valid encrypted openpgp private keys.") None))
  else for_each assertEncryptedPrivateKey keys.

Definition assertMessage (message : Js.Value) : Js.Completion unit :=
  if negb (instanceof_Message message) then
    Js.Throw (Js.Error (t "The message should be a valid openpgp message.") None)
  else Js.Normal tt.

Definition assertDecryptedMessage (message : Js.Value) : Js.Completion unit :=
  do* assertMessage message in
  match findPacket message publicKeyEncryptedSessionKey with
  | None =>
      Js.Throw (Js.Error (t "The message should contain at least one session key.") None)
  | Some packetWithSessionKey =>
      match Js.packet_encrypted packetWithSessionKey with
      | Some _ => Js.Throw (Js.Error (t "The message should be decrypted.") None)
      | None => Js.Normal tt
      end
  end.

Definition assertSessionKey (sessionKey : Js.Value) : Js.Completion unit :=
  if negb (String.eqb (Js.toStringTag sessionKey) "[object Object]") then
    Js.Throw (Js.Error "The session keys should be an object." None)
  else if negb (Js.instanceof_Uint8Array (Js.get sessionKey "data"))
          || negb (Js.strict_eq_string (Js.get sessionKey "algorithm") "aes256") then
    Js.Throw (Js.Error "The session keys should be a valid openpgp session key aes256." None)
  else Js.Normal tt.

Definition assertClearMessage (message : Js.Value) : Js.Completion unit :=
  if negb (instanceof_CleartextMessage message) then
    Js.Throw (Js.Error (t "The message should be a valid openpgp clear text message.") None)
  else Js.Normal tt.

End WithCollaborators.

End OpenpgpAssertion.

(** ** [service/crypto/decryptPrivateKeyService.js] *)

Module DecryptPrivateKeyService.

Section WithCollaborators.

Variable t : string -> string.
Variable openpgp_readKey : Js.Value -> Js.Promise Js.Key.

(** [assertPassphrase], imported from [utils/assertions]. *)
Variable assertPassphrase : Js.Value -> Js.Completion unit.

(** [decrypt] returns the argument it was given as key: the promise of the
    async function is resolved with it. *)
Definition decrypt (privateKey : Js.Argument) (passphrase : Js.Value)
  : Js.Promise Js.Value :=
  Js.async_return
    (do* assertPassphrase passphrase in
     Js.Normal (Js.Promise_resolve privateKey)).

Definition decryptArmoredKey (armoredPrivateKey passphrase : Js.Value)
  : Js.Promise Js.Value :=
  Js.async
    (let* privateKey :=
       Js.await (OpenpgpAssertion.readKeyOrFail t openpgp_readKey armoredPrivateKey) in
     Js.await (decrypt privateKey passphrase)).

End WithCollaborators.

End DecryptPrivateKeyService.

(** ** Vocabulary of the specification *)

Module Spec.

(** The format errors of the specification are the plain [Error] and
    [TypeError] values the assertion library throws. *)
Definition isFormatError (e : Js.Exception) : bool :=
  match e with
  | Js.Error _ _ | Js.TypeError _ => true
  | _ => false
  end.

(** A value that is a string with at least one character. *)
Definition isNonEmptyString (v : Js.Value) : bool :=
  match v with
  | Js.String s => negb (String.eqb s EmptyString)
  | _ => false
  end.

Definition isDigit (c : ascii) : bool :=
  (48 <=? nat_of_ascii c)%nat && (nat_of_ascii c <=? 57)%nat.

Definition isHexDigit (c : ascii) : bool :=
  isDigit c
  || ((65 <=? nat_of_ascii c)%nat && (nat_of_ascii c <=? 70)%nat)
  || ((97 <=? nat_of_ascii c)%nat && (nat_of_ascii c <=? 102)%nat).

(** The session key format in the words of the specification: one or two
    ASCII digits, a colon, and exactly 64 hexadecimal characters of either
    case. *)
Definition sessionKeyFormat (tag payload : list ascii) : Prop :=
  (1 <= length tag <= 2)%nat /\ forallb isDigit tag = true /\
  length payload = 64%nat /\ forallb isHexDigit payload = true.

Definition matchesSessionKeyFormat (text : string) : Prop :=
  exists tag payload : list ascii,
    list_ascii_of_string text = (tag ++ ":"%char :: payload)%list /\
    sessionKeyFormat tag payload.

(** The session-key-encryption packets of a message, in order. *)
Definition sessionKeyPackets (message : Js.Value) : list Js.Packet :=
  match message with
  | Js.Message packets =>
      filter (fun p => Js.packet_tag p = OpenpgpAssertion.publicKeyEncryptedSessionKey) packets
  | _ => []
  end.

(** The five assertions over an array of keys. *)
Inductive Batch :=
| Keys | PublicKeys | PrivateKeys | DecryptedPrivateKeys | EncryptedPrivateKeys.

Definition batchAssertion (t : string -> string) (b : Batch)
  : Js.Value -> list nat * Js.Completion unit :=
  match b with
  | Keys => OpenpgpAssertion.assertKeys t
  | PublicKeys => OpenpgpAssertion.assertPublicKeys t
  | PrivateKeys => OpenpgpAssertion.assertPrivateKeys t
  | DecryptedPrivateKeys => OpenpgpAssertion.assertDecryptedPrivateKeys t
  | EncryptedPrivateKeys => OpenpgpAssertion.assertEncryptedPrivateKeys t
  end.

(** The assertion over one key that each of them repeats. *)
Definition elementAssertion (t : string -> string) (b : Batch)
  : Js.Value -> Js.Completion unit :=
  match b with
  | Keys => OpenpgpAssertion.assertKey t
  | PublicKeys => OpenpgpAssertion.assertPublicKey t
  | PrivateKeys => OpenpgpAssertion.assertPrivateKey t
  | DecryptedPrivateKeys => OpenpgpAssertion.assertDecryptedPrivateKey t
  | EncryptedPrivateKeys => OpenpgpAssertion.assertEncryptedPrivateKey t
  end.

(** Index [j] holds the first element of [keys] that [body] rejects, with
    error [e]. *)
Definition firstViolation (body : Js.Value -> Js.Completion unit)
    (keys : list Js.Value) (j : nat) (e : Js.Exception) : Prop :=
  (exists key, keys !! j = Some key /\ body key = Js.Throw e) /\
  (forall i key, (i < j)%nat -> keys !! i = Some key -> body key = Js.Normal tt).

End Spec.

(** * Properties *)

(** ** The decryption service *)

Section DecryptProperties.

Variable t : string -> string.
Variable openpgp_readKey : Js.Value -> Js.Promise Js.Key.

Lemma decrypt_outcome (assertPassphrase : Js.Value -> Js.Completion unit)
    (privateKey passphrase : Js.Value) :
  DecryptPrivateKeyService.decrypt assertPassphrase privateKey passphrase =
  match assertPassphrase passphrase with
  | Js.Normal _ => Js.Resolved privateKey
  | Js.Throw e => Js.Rejected e
  end.
Proof.
  unfold DecryptPrivateKeyService.decrypt, Js.bind.
  destruct (assertPassphrase passphrase); reflexivity.
Qed.

(** C1: with a non-empty string as passphrase, [decrypt] resolves to the very
    key object it was given, whatever it is; with any other passphrase
    (missing, empty, not a string) it is rejected with the
    passphrase-validation error, whatever the key. *)
Theorem decrypt_validates_passphrase_shape (privateKey passphrase : Js.Value) :
  DecryptPrivateKeyService.decrypt Assertions.assertPassphrase privateKey passphrase =
  if Spec.isNonEmptyString passphrase then Js.Resolved privateKey
  else Js.Rejected (Js.PassphraseValidationError "This is not a valid passphrase").
Proof.
  rewrite decrypt_outcome.
  destruct passphrase as [| | | |s| | | | | |]; try reflexivity.
  simpl. destruct s; reflexivity.
Qed.

(** Counterexample to C10 as first stated, for every value whatsoever as
    key: with a passphrase the passphrase check accepts and, as key, a
    promise rejected with an [InvalidMasterPasswordError], [decrypt] does
    not resolve to the value it was given, it is rejected with that
    error. *)
Lemma decrypt_thenable_key_counterexample :
  Assertions.assertPassphrase (Js.String "ada@passbolt.com") = Js.Normal tt
  /\ DecryptPrivateKeyService.decrypt Assertions.assertPassphrase
       (Js.Thenable (Js.Rejected
          (Js.InvalidMasterPasswordError "This is not a valid passphrase")))
       (Js.String "ada@passbolt.com")
     = Js.Rejected (Js.InvalidMasterPasswordError "This is not a valid passphrase").
Proof. split; reflexivity. Qed.

(** C10, amended: [decrypt] does not look at the key.  Whatever the
    passphrase check is, when it accepts the passphrase [decrypt] resolves
    to the value it was given as key, if that value is not a thenable, and
    settles as the thenable does if it is one.  [decrypt] has no error of
    its own: it is rejected exactly with the error the passphrase check
    throws, which comes out whatever the key argument is, or with the
    rejection of a thenable given as key. *)
Theorem decrypt_hands_back_its_key_argument
    (assertPassphrase : Js.Value -> Js.Completion unit)
    (privateKey : Js.Argument) (passphrase : Js.Value) :
  (forall key : Js.Value,
     privateKey = Js.Plain key ->
     assertPassphrase passphrase = Js.Normal tt ->
     DecryptPrivateKeyService.decrypt assertPassphrase privateKey passphrase
     = Js.Resolved key)
  /\ (forall settled,
        privateKey = Js.Thenable settled ->
        assertPassphrase passphrase = Js.Normal tt ->
        DecryptPrivateKeyService.decrypt assertPassphrase privateKey passphrase = settled)
  /\ (forall e,
        DecryptPrivateKeyService.decrypt assertPassphrase privateKey passphrase
          = Js.Rejected e
        <-> assertPassphrase passphrase = Js.Throw e
            \/ (assertPassphrase passphrase = Js.Normal tt
                /\ privateKey = Js.Thenable (Js.Rejected e)))
  /\ (forall e (otherKey : Js.Argument),
        assertPassphrase passphrase = Js.Throw e ->
        DecryptPrivateKeyService.decrypt assertPassphrase otherKey passphrase
        = Js.Rejected e).
Proof.
  unfold DecryptPrivateKeyService.decrypt.
  split; [| split; [| split]].
  - intros key -> ->. reflexivity.
  - intros settled -> ->. reflexivity.
  - intros e. destruct (assertPassphrase passphrase) as [[] | e']; cbn; split.
    + destruct privateKey as [key | [v | e']]; cbn; try discriminate.
      intros [= <-]. right. auto.
    + intros [Hthrow | [_ ->]]; [discriminate | reflexivity].
    + intros [= <-]. left. reflexivity.
    + intros [[= <-] | [Hnormal _]]; [reflexivity | discriminate].
  - intros e otherKey ->. reflexivity.
Qed.

(** An encrypted private key and a passphrase that is not the one of the
    key. *)
Lemma decrypt_hands_back_its_key_argument_witness :
  Assertions.assertPassphrase (Js.String "wrong passphrase") = Js.Normal tt
  /\ DecryptPrivateKeyService.decrypt Assertions.assertPassphrase
       (Js.KeyObject (Js.PrivateKey "ada" false)) (Js.String "wrong passphrase")
     = Js.Resolved (Js.KeyObject (Js.PrivateKey "ada" false)).
Proof.
  split; [reflexivity |].
  apply (proj1 (decrypt_hands_back_its_key_argument Assertions.assertPassphrase
                  (Js.KeyObject (Js.PrivateKey "ada" false))
                  (Js.String "wrong passphrase"))
               (Js.KeyObject (Js.PrivateKey "ada" false)) eq_refl eq_refl).
Defined.

(** A rejection of [decrypt] is an error of the passphrase check, the same
    for every key. *)
Lemma decrypt_rejection_is_key_independent
    (assertPassphrase : Js.Value -> Js.Completion unit)
    (privateKey otherKey passphrase : Js.Value) (e : Js.Exception) :
  DecryptPrivateKeyService.decrypt assertPassphrase privateKey passphrase = Js.Rejected e <->
  DecryptPrivateKeyService.decrypt assertPassphrase otherKey passphrase = Js.Rejected e.
Proof.
  rewrite !decrypt_outcome. destruct (assertPassphrase passphrase); split; congruence.
Qed.

(** Every rejection of [readKeyOrFail] carries the same error. *)
Lemma readKeyOrFail_rejection (armoredKey : Js.Value) (e : Js.Exception) :
  OpenpgpAssertion.readKeyOrFail t openpgp_readKey armoredKey = Js.Rejected e ->
  e = Js.Error (t "The key should be a valid openpgp armored key string.") None.
Proof.
  unfold OpenpgpAssertion.readKeyOrFail.
  destruct (negb (Js.typeof armoredKey =? "string")%string); simpl.
  - congruence.
  - destruct (openpgp_readKey armoredKey); simpl; congruence.
Qed.

(** C9: [decryptArmoredKey] reads the key, then decrypts.  When
    [readKeyOrFail] rejects the armored text, with its format error,
    [decryptArmoredKey] is rejected with that same error whatever the
    passphrase is, so before the passphrase is looked at; when it resolves
    to a key, the result is that of [decrypt] on this key and the
    passphrase. *)
Theorem decryptArmoredKey_reads_then_decrypts
    (assertPassphrase : Js.Value -> Js.Completion unit)
    (armoredPrivateKey passphrase : Js.Value) :
  match OpenpgpAssertion.readKeyOrFail t openpgp_readKey armoredPrivateKey with
  | Js.Rejected e =>
      Spec.isFormatError e = true /\
      DecryptPrivateKeyService.decryptArmoredKey t openpgp_readKey assertPassphrase
        armoredPrivateKey passphrase = Js.Rejected e
  | Js.Resolved privateKey =>
      DecryptPrivateKeyService.decryptArmoredKey t openpgp_readKey assertPassphrase
        armoredPrivateKey passphrase
      = DecryptPrivateKeyService.decrypt assertPassphrase privateKey passphrase
  end.
Proof.
  unfold DecryptPrivateKeyService.decryptArmoredKey.
  destruct (OpenpgpAssertion.readKeyOrFail t openpgp_readKey armoredPrivateKey)
    as [privateKey | e] eqn:Hread; simpl.
  - destruct (DecryptPrivateKeyService.decrypt assertPassphrase privateKey passphrase);
      reflexivity.
  - split; [| reflexivity].
    apply readKeyOrFail_rejection in Hread. subst e. reflexivity.
Qed.

End DecryptProperties.

(** A malformed armored key and a passphrase that is not valid either: the
    error is the one of the key. *)
Example decryptArmoredKey_malformed_key_first :
  DecryptPrivateKeyService.decryptArmoredKey (fun m => m)
    (fun _ => Js.Rejected (Js.Error "Misformed armored text" None))
    Assertions.assertPassphrase (Js.String "not a key") (Js.String EmptyString)
  = Js.Rejected (Js.Error "The key should be a valid openpgp armored key string." None).
Proof. reflexivity. Qed.

(** ** The parse-or-fail factories *)

Section FactoryProperties.

Variable t : string -> string.
Variable openpgp_readKey : Js.Value -> Js.Promise Js.Key.
Variable openpgp_readMessage : Js.Value -> Js.Promise (list Js.Packet).
Variable openpgp_readCleartextMessage : Js.Value -> Js.Promise string.
Variable openpgp_createMessage : Js.Value -> Js.Promise (list Js.Packet).
Variable openpgp_createCleartextMessage : Js.Value -> Js.Promise string.

Lemma typeof_not_string (x : Js.Value) :
  Js.typeof x <> "string" -> negb (Js.typeof x =? "string")%string = true.
Proof.
  intros H. apply negb_true_iff, String.eqb_neq, H.
Qed.

(** C5: on a value that is not a string ([undefined], [null], a number, an
    object and so on) each of [readKeyOrFail], [readMessageOrFail],
    [readClearMessageOrFail], [createMessageOrFail] and
    [createCleartextMessageOrFail] is rejected with its format error. *)
Theorem factories_reject_non_strings (x : Js.Value) :
  Js.typeof x <> "string" ->
  OpenpgpAssertion.readKeyOrFail t openpgp_readKey x
    = Js.Rejected (Js.Error (t "The key should be a valid openpgp armored key string.") None)
  /\ OpenpgpAssertion.readMessageOrFail t openpgp_readMessage x
    = Js.Rejected (Js.Error (t "The message should be of type string.") None)
  /\ OpenpgpAssertion.readClearMessageOrFail t openpgp_readCleartextMessage x
    = Js.Rejected (Js.Error (t "The message should be of type string.") None)
  /\ OpenpgpAssertion.createMessageOrFail t openpgp_createMessage x
    = Js.Rejected (Js.Error (t "The message should be of type string.") None)
  /\ OpenpgpAssertion.createCleartextMessageOrFail t openpgp_createCleartextMessage x
    = Js.Rejected (Js.Error (t "The message should be of type string.") None)
  /\ forall e, In (Js.Rejected e)
       [ OpenpgpAssertion.readKeyOrFail t openpgp_readKey x;
         OpenpgpAssertion.readMessageOrFail t openpgp_readMessage x;
         OpenpgpAssertion.readClearMessageOrFail t openpgp_readCleartextMessage x;
         OpenpgpAssertion.createMessageOrFail t openpgp_createMessage x;
         OpenpgpAssertion.createCleartextMessageOrFail t openpgp_createCleartextMessage x ] ->
       Spec.isFormatError e = true.
Proof.
  intros Hx. apply typeof_not_string in Hx.
  unfold OpenpgpAssertion.readKeyOrFail, OpenpgpAssertion.readMessageOrFail,
    OpenpgpAssertion.readClearMessageOrFail, OpenpgpAssertion.createMessageOrFail,
    OpenpgpAssertion.createCleartextMessageOrFail.
  rewrite Hx. simpl.
  do 5 (split; [reflexivity |]).
  intros e He. repeat destruct He as [He | He]; try (inversion He; reflexivity).
Qed.

End FactoryProperties.

(** The theorem at [undefined], [null], a number and an object, for parsers
    that would accept anything. *)
Lemma factories_reject_non_strings_witness :
  Forall (fun x =>
    Js.typeof x <> "string" /\
    OpenpgpAssertion.readKeyOrFail (fun m => m)
      (fun _ => Js.Resolved (Js.PublicKey "k")) x
    = Js.Rejected (Js.Error "The key should be a valid openpgp armored key string." None))
  [Js.Undefined; Js.Null; Js.Number 42; Js.Object ∅].
Proof.
  assert (Hreject : forall x, Js.typeof x <> "string" ->
            OpenpgpAssertion.readKeyOrFail (fun m => m)
              (fun _ => Js.Resolved (Js.PublicKey "k")) x
            = Js.Rejected
                (Js.Error "The key should be a valid openpgp armored key string." None)).
  { intros x Hx.
    apply (factories_reject_non_strings (fun m => m)
             (fun _ => Js.Resolved (Js.PublicKey "k"))
             (fun _ => Js.Resolved []) (fun _ => Js.Resolved "m")
             (fun _ => Js.Resolved []) (fun _ => Js.Resolved "m") x Hx). }
  repeat (constructor; [split; [discriminate | apply Hreject; discriminate] |]).
  constructor.
Defined.

(** ** The assertions on one object *)

Section AssertionProperties.

Variable t : string -> string.

(** What passes [assertKey] is a key object of the library. *)
Lemma assertKey_inv (key : Js.Value) :
  OpenpgpAssertion.assertKey t key = Js.Normal tt -> exists k, key = Js.KeyObject k.
Proof.
  destruct key; try discriminate. intros _. eexists; reflexivity.
Qed.

(** C3: on an object that passes [assertKey], [assertPublicKey] succeeds
    exactly when the key is not private and [assertPrivateKey] exactly when
    it is private; the two never succeed together, and one of them always
    succeeds. *)
Theorem public_private_assertions_partition_keys (key : Js.Value) :
  OpenpgpAssertion.assertKey t key = Js.Normal tt ->
  (OpenpgpAssertion.assertPublicKey t key = Js.Normal tt
     <-> OpenpgpAssertion.isPrivate key = false)
  /\ (OpenpgpAssertion.assertPrivateKey t key = Js.Normal tt
     <-> OpenpgpAssertion.isPrivate key = true)
  /\ ~ (OpenpgpAssertion.assertPublicKey t key = Js.Normal tt
        /\ OpenpgpAssertion.assertPrivateKey t key = Js.Normal tt)
  /\ (OpenpgpAssertion.assertPublicKey t key = Js.Normal tt
      \/ OpenpgpAssertion.assertPrivateKey t key = Js.Normal tt).
Proof.
  intros Hkey. destruct (assertKey_inv key Hkey) as [[armored | armored decrypted] ->];
    cbn; repeat split; try discriminate; auto; intros [Hpub Hpriv]; congruence.
Qed.

Lemma find_head_filter {A} (f : A -> bool) (P : A -> Prop) `{!forall x, Decision (P x)}
    (l : list A) :
  (forall x, f x = true <-> P x) ->
  List.find f l = head (filter P l).
Proof.
  intros Hf. induction l as [| a l IH]; [reflexivity |].
  cbn [List.find]. rewrite filter_cons.
  destruct (f a) eqn:Hfa.
  - apply Hf in Hfa. rewrite decide_True by assumption. reflexivity.
  - rewrite decide_False; [exact IH |]. intros HP. apply Hf in HP. congruence.
Qed.

(** [findPacket] returns the first session-key-encryption packet. *)
Lemma findPacket_first (message : Js.Value) :
  OpenpgpAssertion.findPacket message OpenpgpAssertion.publicKeyEncryptedSessionKey
  = head (Spec.sessionKeyPackets message).
Proof.
  destruct message; try reflexivity.
  apply find_head_filter. intros p. apply Z.eqb_eq.
Qed.

(** C6: on a message that passes [assertMessage], [assertDecryptedMessage]
    fails when the message has no session-key-encryption packet, fails when
    the first such packet still has its encrypted payload, and succeeds
    exactly when there is such a packet and the payload of the first one is
    cleared. *)
Theorem assertDecryptedMessage_first_session_key_packet (message : Js.Value) :
  OpenpgpAssertion.assertMessage t message = Js.Normal tt ->
  (Spec.sessionKeyPackets message = [] ->
     OpenpgpAssertion.assertDecryptedMessage t message
     = Js.Throw (Js.Error (t "The message should contain at least one session key.") None))
  /\ (forall first others payload,
        Spec.sessionKeyPackets message = first :: others ->
        Js.packet_encrypted first = Some payload ->
        OpenpgpAssertion.assertDecryptedMessage t message
        = Js.Throw (Js.Error (t "The message should be decrypted.") None))
  /\ (OpenpgpAssertion.assertDecryptedMessage t message = Js.Normal tt
      <-> exists first others,
            Spec.sessionKeyPackets message = first :: others
            /\ Js.packet_encrypted first = None).
Proof.
  intros Hmsg. unfold OpenpgpAssertion.assertDecryptedMessage.
  rewrite Hmsg, findPacket_first. cbn [Js.bind].
  destruct (Spec.sessionKeyPackets message) as [| first others]; cbn [head].
  - split; [reflexivity |]. split; [discriminate |].
    split; [discriminate | intros (? & ? & ? & _); discriminate].
  - split; [discriminate |]. split.
    + intros ? ? payload [= <- <-] ->. reflexivity.
    + split.
      * destruct (Js.packet_encrypted first) eqn:Henc; [discriminate |].
        intros _. exists first, others. auto.
      * intros (? & ? & [= <- <-] & ->). reflexivity.
Qed.

(** The properties [data] and [algorithm] of a session key object. *)
Lemma get_data (data algorithm : Js.Value) :
  Js.get (Js.Object {[ "data" := data; "algorithm" := algorithm ]}) "data" = data.
Proof. cbn. by simplify_map_eq. Qed.

Lemma get_algorithm (data algorithm : Js.Value) :
  Js.get (Js.Object {[ "data" := data; "algorithm" := algorithm ]}) "algorithm" = algorithm.
Proof. cbn. by simplify_map_eq. Qed.

Lemma strict_eq_string_false (v : Js.Value) (s : string) :
  v <> Js.String s -> Js.strict_eq_string v s = false.
Proof.
  destruct v; try reflexivity. intros Hne. cbn.
  apply bool_decide_eq_false. congruence.
Qed.

(** C7: [assertSessionKey] accepts a plain object whose [data] is a byte
    sequence, of 32 bytes in particular, and whose [algorithm] is the string
    [aes256]; it rejects the same object with any other [algorithm], such as
    [aes128], or with a plain array as [data]; and it rejects what is not an
    object. *)
Theorem assertSessionKey_allows_only_aes256 (bytes : list Z) :
  OpenpgpAssertion.assertSessionKey
    (Js.Object {[ "data" := Js.Uint8Array bytes; "algorithm" := Js.String "aes256" ]})
  = Js.Normal tt
  /\ (forall algorithm, algorithm <> Js.String "aes256" ->
        OpenpgpAssertion.assertSessionKey
          (Js.Object {[ "data" := Js.Uint8Array bytes; "algorithm" := algorithm ]})
        = Js.Throw (Js.Error
            "The session keys should be a valid openpgp session key aes256." None))
  /\ OpenpgpAssertion.assertSessionKey
       (Js.Object {[ "data" := Js.Array (map Js.Number bytes);
                     "algorithm" := Js.String "aes256" ]})
     = Js.Throw (Js.Error
         "The session keys should be a valid openpgp session key aes256." None)
  /\ (forall v, Js.typeof v <> "object" \/ v = Js.Null \/ Js.isArray v = true ->
        OpenpgpAssertion.assertSessionKey v
        = Js.Throw (Js.Error "The session keys should be an object." None)).
Proof.
  unfold OpenpgpAssertion.assertSessionKey.
  split; [| split; [| split]].
  - rewrite get_data, get_algorithm. reflexivity.
  - intros algorithm Hne. rewrite get_data, get_algorithm.
    rewrite (strict_eq_string_false _ _ Hne). reflexivity.
  - rewrite get_data, get_algorithm. reflexivity.
  - intros v [Hv | [-> | Hv]]; [| reflexivity |].
    + destruct v; try reflexivity; exfalso; apply Hv; reflexivity.
    + destruct v; try discriminate. reflexivity.
Qed.

End AssertionProperties.

(** The session key of 32 bytes, and the same with [aes128]. *)
Lemma assertSessionKey_allows_only_aes256_witness :
  OpenpgpAssertion.assertSessionKey
    (Js.Object {[ "data" := Js.Uint8Array (repeat 144%Z 32);
                  "algorithm" := Js.String "aes256" ]})
  = Js.Normal tt
  /\ (Js.String "aes128" <> Js.String "aes256" ->
      OpenpgpAssertion.assertSessionKey
        (Js.Object {[ "data" := Js.Uint8Array (repeat 144%Z 32);
                      "algorithm" := Js.String "aes128" ]})
      = Js.Throw (Js.Error
          "The session keys should be a valid openpgp session key aes256." None)).
Proof.
  split.
  - apply (assertSessionKey_allows_only_aes256 (repeat 144%Z 32)).
  - apply (assertSessionKey_allows_only_aes256 (repeat 144%Z 32)).
Defined.

Lemma public_private_assertions_partition_keys_witness :
  OpenpgpAssertion.assertKey (fun m => m) (Js.KeyObject (Js.PrivateKey "ada" false))
    = Js.Normal tt
  /\ (OpenpgpAssertion.assertPrivateKey (fun m => m)
        (Js.KeyObject (Js.PrivateKey "ada" false)) = Js.Normal tt
      <-> OpenpgpAssertion.isPrivate (Js.KeyObject (Js.PrivateKey "ada" false)) = true).
Proof.
  split; [reflexivity |].
  apply (public_private_assertions_partition_keys (fun m => m)
           (Js.KeyObject (Js.PrivateKey "ada" false)) eq_refl).
Defined.

(** A message whose first session-key-encryption packet is cleared and whose
    second one is not. *)
Lemma assertDecryptedMessage_first_session_key_packet_witness :
  let message :=
    Js.Message [Js.mkPacket 11 (Some [1%Z]); Js.mkPacket 1 None;
                Js.mkPacket 1 (Some [7%Z]); Js.mkPacket 18 None] in
  OpenpgpAssertion.assertMessage (fun m => m) message = Js.Normal tt
  /\ (OpenpgpAssertion.assertDecryptedMessage (fun m => m) message = Js.Normal tt
      <-> exists first others,
            Spec.sessionKeyPackets message = first :: others
            /\ Js.packet_encrypted first = None).
Proof.
  split; [reflexivity |].
  apply (assertDecryptedMessage_first_session_key_packet (fun m => m)
           (Js.Message [Js.mkPacket 11 (Some [1%Z]); Js.mkPacket 1 None;
                        Js.mkPacket 1 (Some [7%Z]); Js.mkPacket 18 None])
           eq_refl).
Defined.

(** ** Reading a batch of keys *)

Section ReadAllKeysProperties.

Variable t : string -> string.
Variable openpgp_readKey : Js.Value -> Js.Promise Js.Key.

Lemma Promise_all_resolved (ps : list (Js.Promise Js.Value)) (values : list Js.Value) :
  Forall2 (fun p v => p = Js.Resolved v) ps values ->
  Js.Promise_all ps = Js.Resolved (Js.Array values).
Proof.
  induction 1 as [| p v ps values -> _ IH]; [reflexivity |].
  cbn. rewrite IH. reflexivity.
Qed.

Lemma Promise_all_first_rejection (ps : list (Js.Promise Js.Value)) (j : nat)
    (e : Js.Exception) :
  ps !! j = Some (Js.Rejected e) ->
  (forall i p, (i < j)%nat -> ps !! i = Some p -> exists v, p = Js.Resolved v) ->
  Js.Promise_all ps = Js.Rejected e.
Proof.
  revert j. induction ps as [| p ps IH]; intros j Hj Hbefore; [discriminate |].
  destruct j as [| j].
  - injection Hj as ->. reflexivity.
  - destruct (Hbefore 0%nat p ltac:(lia) eq_refl) as [v ->]. cbn.
    rewrite (IH j Hj); [reflexivity |].
    intros i q Hi Hq. apply (Hbefore (S i) q); [lia | exact Hq].
Qed.

(** A rejected promise among [ps] makes [Promise.all] reject, with the error
    of one of them. *)
Lemma Promise_all_some_rejection (ps : list (Js.Promise Js.Value)) (e : Js.Exception) :
  In (Js.Rejected e) ps ->
  exists e', In (Js.Rejected e') ps /\ Js.Promise_all ps = Js.Rejected e'.
Proof.
  induction ps as [| p ps IH]; intros Hin; [destruct Hin |].
  destruct p as [v | e0].
  - destruct Hin as [Heq | Hin]; [discriminate |].
    destruct (IH Hin) as (e' & Hin' & Hall).
    exists e'. split; [right; exact Hin' |]. cbn. rewrite Hall. reflexivity.
  - exists e0. split; [left; reflexivity | reflexivity].
Qed.

(** C4: [readAllKeysOrFail] is rejected with a format error when its
    argument is not an array.  On an array it is [Promise.all] over
    [readKeyOrFail] applied to each element: when every element parses it
    resolves to the parsed keys in the order of the array; the first element
    that does not parse decides the rejection; and one element that does not
    parse makes the whole batch fail, with the format error of
    [readKeyOrFail]. *)
Theorem readAllKeysOrFail_all_or_nothing (armoredKeys : Js.Value) :
  (Js.isArray armoredKeys = false ->
     OpenpgpAssertion.readAllKeysOrFail t openpgp_readKey armoredKeys
     = Js.Rejected (Js.Error
         (t "The keys should be an array of valid openpgp armored key strings.") None))
  /\ (forall items, armoredKeys = Js.Array items ->
        OpenpgpAssertion.readAllKeysOrFail t openpgp_readKey armoredKeys
        = Js.Promise_all (map (OpenpgpAssertion.readKeyOrFail t openpgp_readKey) items)
        /\ (forall keys,
              Forall2 (fun armored key =>
                OpenpgpAssertion.readKeyOrFail t openpgp_readKey armored = Js.Resolved key)
                items keys ->
              OpenpgpAssertion.readAllKeysOrFail t openpgp_readKey armoredKeys
              = Js.Resolved (Js.Array keys))
        /\ (forall j armored e,
              items !! j = Some armored ->
              OpenpgpAssertion.readKeyOrFail t openpgp_readKey armored = Js.Rejected e ->
              (forall i other, (i < j)%nat -> items !! i = Some other ->
                 exists key,
                   OpenpgpAssertion.readKeyOrFail t openpgp_readKey other = Js.Resolved key) ->
              OpenpgpAssertion.readAllKeysOrFail t openpgp_readKey armoredKeys
              = Js.Rejected e)
        /\ (forall armored e,
              In armored items ->
              OpenpgpAssertion.readKeyOrFail t openpgp_readKey armored = Js.Rejected e ->
              Spec.isFormatError e = true
              /\ OpenpgpAssertion.readAllKeysOrFail t openpgp_readKey armoredKeys
                 = Js.Rejected e)).
Proof.
  split.
  - intros Hnot. unfold OpenpgpAssertion.readAllKeysOrFail. rewrite Hnot. reflexivity.
  - intros items ->.
    change (OpenpgpAssertion.readAllKeysOrFail t openpgp_readKey (Js.Array items))
      with (Js.Promise_all (map (OpenpgpAssertion.readKeyOrFail t openpgp_readKey) items)).
    split; [reflexivity |]. split; [| split].
    + intros keys Hall. apply Promise_all_resolved.
      induction Hall; constructor; assumption.
    + intros j armored e Hj Hrej Hbefore.
      apply (Promise_all_first_rejection _ j).
      * rewrite list_lookup_fmap, Hj. cbn. rewrite Hrej. reflexivity.
      * intros i p Hi Hp. rewrite list_lookup_fmap in Hp.
        destruct (items !! i) as [other |] eqn:Hother; [| discriminate].
        injection Hp as <-. exact (Hbefore i other Hi Hother).
    + intros armored e Hin Hrej.
      pose proof (readKeyOrFail_rejection t openpgp_readKey armored e Hrej) as He.
      split; [subst e; reflexivity |].
      destruct (Promise_all_some_rejection
                  (map (OpenpgpAssertion.readKeyOrFail t openpgp_readKey) items) e)
        as (e' & Hin' & Hall).
      * rewrite <- Hrej. apply in_map, Hin.
      * apply in_map_iff in Hin' as (other & Hother & _).
        apply readKeyOrFail_rejection in Hother. congruence.
Qed.

End ReadAllKeysProperties.

(** Two keys that parse give both keys in order; with a malformed entry
    between them the batch is rejected. *)
Example readAllKeysOrFail_batches :
  let readKey armored :=
    match armored with
    | Js.String "public" => Js.Resolved (Js.PublicKey "public")
    | Js.String "private" => Js.Resolved (Js.PrivateKey "private" false)
    | _ => Js.Rejected (Js.Error "Misformed armored text" None)
    end in
  OpenpgpAssertion.readAllKeysOrFail (fun m => m) readKey
    (Js.Array [Js.String "private"; Js.String "public"])
  = Js.Resolved (Js.Array [Js.KeyObject (Js.PrivateKey "private" false);
                           Js.KeyObject (Js.PublicKey "public")])
  /\ OpenpgpAssertion.readAllKeysOrFail (fun m => m) readKey
       (Js.Array [Js.String "private"; Js.String "garbage"; Js.String "public"])
     = Js.Rejected (Js.Error "The key should be a valid openpgp armored key string." None).
Proof. split; reflexivity. Qed.

(** ** The assertions on an array of keys *)

Section BatchProperties.

Variable t : string -> string.

(** The loop stops at the first element its body rejects, having called the
    body at the indices up to that one, in order. *)
Lemma for_loop_first_violation (body : Js.Value -> Js.Completion unit)
    (keys : list Js.Value) (j : nat) (e : Js.Exception) :
  Spec.firstViolation body keys j e ->
  forall n i, (i <= j)%nat -> (j < i + n)%nat ->
    OpenpgpAssertion.for_loop body keys n i = (seq i (S j - i), Js.Throw e).
Proof.
  intros [(key & Hkey & Hthrow) Hbefore].
  induction n as [| n IH]; intros i Hij Hn; [lia |].
  cbn [OpenpgpAssertion.for_loop].
  destruct (decide (i = j)) as [-> | Hne].
  - rewrite Hkey, Hthrow. replace (S j - j)%nat with 1%nat by lia. reflexivity.
  - destruct (lookup_lt_is_Some_2 keys i) as [other Hother].
    { apply lookup_lt_Some in Hkey. lia. }
    rewrite Hother, (Hbefore i other) by (lia || assumption).
    rewrite (IH (S i)) by lia.
    replace (S j - i)%nat with (S (S j - S i)) by lia. reflexivity.
Qed.

(** When the body accepts every element the loop visits every index and
    completes, provided it is given as many iterations as elements remain. *)
Lemma for_loop_no_violation (body : Js.Value -> Js.Completion unit)
    (keys : list Js.Value) :
  (forall i key, keys !! i = Some key -> body key = Js.Normal tt) ->
  forall n i, (length keys <= i + n)%nat ->
    OpenpgpAssertion.for_loop body keys n i = (seq i (length keys - i), Js.Normal tt).
Proof.
  intros Hall. induction n as [| n IH]; intros i Hn.
  - replace (length keys - i)%nat with 0%nat by lia. reflexivity.
  - cbn [OpenpgpAssertion.for_loop].
    destruct (keys !! i) as [key |] eqn:Hkey.
    + rewrite (Hall i key Hkey), (IH (S i)) by lia.
      apply lookup_lt_Some in Hkey.
      replace (length keys - i)%nat with (S (length keys - S i)) by lia. reflexivity.
    + apply lookup_ge_None in Hkey.
      replace (length keys - i)%nat with 0%nat by lia. reflexivity.
Qed.

Lemma batchAssertion_on_array (b : Spec.Batch) (keys : list Js.Value) :
  Spec.batchAssertion t b (Js.Array keys)
  = OpenpgpAssertion.for_loop (Spec.elementAssertion t b) keys (length keys) 0.
Proof. destruct b; reflexivity. Qed.

(** C8: each of [assertKeys], [assertPublicKeys], [assertPrivateKeys],
    [assertDecryptedPrivateKeys] and [assertEncryptedPrivateKeys] goes through
    the array from index 0 upwards.  When index [j] holds the first element
    the assertion on one key rejects, the batch assertion has called it at
    the indices 0 to [j] and at no other, and throws the one error the
    assertion on one key throws for that element. *)
Theorem batch_assertions_fail_on_first_violation (b : Spec.Batch)
    (keys : list Js.Value) (j : nat) (e : Js.Exception) :
  Spec.firstViolation (Spec.elementAssertion t b) keys j e ->
  Spec.batchAssertion t b (Js.Array keys) = (seq 0 (S j), Js.Throw e).
Proof.
  intros Hfirst. rewrite batchAssertion_on_array.
  rewrite (for_loop_first_violation _ keys j e Hfirst) by
    (try lia; destruct Hfirst as [(key & Hkey & _) _];
     apply lookup_lt_Some in Hkey; lia).
  reflexivity.
Qed.

(** Without a violation every index is visited and the assertion returns. *)
Lemma batch_assertions_pass (b : Spec.Batch) (keys : list Js.Value) :
  (forall i key, keys !! i = Some key -> Spec.elementAssertion t b key = Js.Normal tt) ->
  Spec.batchAssertion t b (Js.Array keys) = (seq 0 (length keys), Js.Normal tt).
Proof.
  intros Hall. rewrite batchAssertion_on_array.
  rewrite (for_loop_no_violation _ keys Hall) by lia.
  rewrite Nat.sub_0_r. reflexivity.
Qed.

End BatchProperties.

(** Two decrypted private keys, a public key and an encrypted private key:
    [assertDecryptedPrivateKeys] stops at index 2 with the error of
    [assertDecryptedPrivateKey] on the public key, and does not reach
    index 3. *)
Lemma batch_assertions_fail_on_first_violation_witness :
  let keys := [Js.KeyObject (Js.PrivateKey "ada" true);
               Js.KeyObject (Js.PrivateKey "betty" true);
               Js.KeyObject (Js.PublicKey "carol");
               Js.KeyObject (Js.PrivateKey "dame" false)] in
  let e := Js.Error "The key should be a valid openpgp private key." None in
  Spec.firstViolation
    (Spec.elementAssertion (fun m => m) Spec.DecryptedPrivateKeys) keys 2 e
  /\ OpenpgpAssertion.assertDecryptedPrivateKeys (fun m => m) (Js.Array keys)
     = ([0; 1; 2]%nat, Js.Throw e).
Proof.
  assert (Hfirst : Spec.firstViolation
            (Spec.elementAssertion (fun m => m) Spec.DecryptedPrivateKeys)
            [Js.KeyObject (Js.PrivateKey "ada" true);
             Js.KeyObject (Js.PrivateKey "betty" true);
             Js.KeyObject (Js.PublicKey "carol");
             Js.KeyObject (Js.PrivateKey "dame" false)] 2
            (Js.Error "The key should be a valid openpgp private key." None)).
  { split.
    - eexists. split; reflexivity.
    - intros [| [| i]] key Hi Hkey; try lia; injection Hkey as <-; reflexivity. }
  split; [exact Hfirst |].
  exact (batch_assertions_fail_on_first_violation (fun m => m)
           Spec.DecryptedPrivateKeys _ 2 _ Hfirst).
Defined.

(** ** The session key format *)

Section RegExpProperties.

Lemma matcher_Seq (i : bool) (p q : RegExp.Pattern) (pos : nat) (input : list ascii)
    (k : RegExp.Continuation) :
  RegExp.matcher i (RegExp.Seq p q) pos input k
  = RegExp.matcher i p pos input (fun pos' rest => RegExp.matcher i q pos' rest k).
Proof. reflexivity. Qed.

Lemma matcher_AssertStart (i : bool) (pos : nat) (input : list ascii)
    (k : RegExp.Continuation) :
  RegExp.matcher i RegExp.AssertStart pos input k = Nat.eqb pos 0 && k pos input.
Proof. reflexivity. Qed.

Lemma matcher_AssertEnd (i : bool) (pos : nat) (input : list ascii)
    (k : RegExp.Continuation) :
  RegExp.matcher i RegExp.AssertEnd pos input k
  = match input with [] => k pos input | _ => false end.
Proof. reflexivity. Qed.

Lemma matcher_Char (i : bool) (c : ascii) (pos : nat) (input : list ascii)
    (k : RegExp.Continuation) :
  RegExp.matcher i (RegExp.Char c) pos input k
  = match input with
    | a :: rest =>
        Ascii.eqb (RegExp.canonicalize i c) (RegExp.canonicalize i a) && k (S pos) rest
    | [] => false
    end.
Proof. reflexivity. Qed.

Lemma matcher_Repeat_O (i : bool) (p : RegExp.Pattern) (min pos : nat)
    (input : list ascii) (k : RegExp.Continuation) :
  RegExp.matcher i (RegExp.Repeat p min 0) pos input k
  = match min with O => k pos input | S _ => false end.
Proof. reflexivity. Qed.

Lemma matcher_Repeat_S (i : bool) (p : RegExp.Pattern) (min max pos : nat)
    (input : list ascii) (k : RegExp.Continuation) :
  RegExp.matcher i (RegExp.Repeat p min (S max)) pos input k
  = RegExp.matcher i p pos input
      (fun pos' rest => RegExp.matcher i (RegExp.Repeat p (Nat.pred min) max) pos' rest k)
    || match min with O => k pos input | S _ => false end.
Proof. reflexivity. Qed.

(** A bounded repetition of a character class matches the prefixes of the
    input made of [min] to [max] characters of the class. *)
Lemma matcher_Repeat_Class (i : bool) (ranges : list (ascii * ascii))
    (k : RegExp.Continuation) (max : nat) :
  forall (min pos : nat) (input : list ascii),
    RegExp.matcher i (RegExp.Repeat (RegExp.Class ranges) min max) pos input k = true
    <-> exists word rest,
          input = (word ++ rest)%list
          /\ (min <= length word <= max)%nat
          /\ forallb (RegExp.class_matches i ranges) word = true
          /\ k (pos + length word)%nat rest = true.
Proof.
  induction max as [| max IH]; intros min pos input.
  - rewrite matcher_Repeat_O. split.
    + destruct min; [| discriminate]. intros Hk.
      exists [], input. rewrite Nat.add_0_r. repeat split; auto.
    + intros (word & rest & -> & [Hmin Hmax] & _ & Hk).
      destruct word; [| cbn in Hmax; lia]. cbn in Hmin, Hk.
      destruct min; [| lia]. rewrite Nat.add_0_r in Hk. exact Hk.
  - rewrite matcher_Repeat_S, orb_true_iff. split.
    + intros [Hstep | Hstop].
      * destruct input as [| a input]; [discriminate |].
        cbn [RegExp.matcher] in Hstep. apply andb_true_iff in Hstep as [Ha Hrest].
        apply IH in Hrest as (word & rest & -> & [Hmin Hmax] & Hword & Hk).
        exists (a :: word), rest. cbn [length forallb app].
        rewrite Ha, Hword, Nat.add_succ_r. repeat split; auto; lia.
      * destruct min; [| discriminate].
        exists [], input. rewrite Nat.add_0_r. repeat split; auto; cbn; lia.
    + intros (word & rest & -> & [Hmin Hmax] & Hword & Hk).
      destruct word as [| a word].
      * right. cbn in Hmin, Hk. destruct min; [| lia].
        rewrite Nat.add_0_r in Hk. exact Hk.
      * left. cbn [forallb] in Hword. apply andb_true_iff in Hword as [Ha Hword].
        cbn [RegExp.matcher app]. rewrite Ha. cbn [andb].
        apply IH. exists word, rest. cbn [length] in *.
        rewrite Nat.add_succ_r in Hk. repeat split; auto; lia.
Qed.

(** Under the [i] flag the class [\d] holds the ASCII digits, the class
    [[0-9A-F]] the hexadecimal digits of both cases, and the character [:]
    matches itself only. *)
Lemma digit_class (c : ascii) :
  RegExp.class_matches true [("0", "9")]%char c = Spec.isDigit c.
Proof. destruct c as [[] [] [] [] [] [] [] []]; reflexivity. Qed.

Lemma hex_class (c : ascii) :
  RegExp.class_matches true [("0", "9"); ("A", "F")]%char c = Spec.isHexDigit c.
Proof. destruct c as [[] [] [] [] [] [] [] []]; reflexivity. Qed.

Lemma colon_char (c : ascii) :
  Ascii.eqb (RegExp.canonicalize true ":") (RegExp.canonicalize true c) = true
  <-> c = ":"%char.
Proof.
  split; [| intros ->; reflexivity].
  destruct c as [[] [] [] [] [] [] [] []]; (discriminate || reflexivity).
Qed.

Lemma forallb_ext_eq {A} (f g : A -> bool) (l : list A) :
  (forall x, f x = g x) -> forallb f l = forallb g l.
Proof. intros H. induction l; cbn; [reflexivity | rewrite H, IHl; reflexivity]. Qed.

(** The pattern is anchored: it matches at index 0 only. *)
Lemma search_after_start (pos : nat) (input : list ascii) :
  RegExp.search true OpenpgpAssertion.sessionKeyPattern (S pos) input = false.
Proof.
  revert pos. induction input as [| a input IH]; intros pos; cbn [RegExp.search];
    unfold OpenpgpAssertion.sessionKeyPattern at 1;
    rewrite matcher_Seq, matcher_AssertStart;
    cbn [Nat.eqb andb orb]; [reflexivity | apply IH].
Qed.

(** The regular expression of the source accepts exactly the strings of the
    format the specification describes. *)
Lemma sessionKeyPattern_format (text : string) :
  RegExp.test true OpenpgpAssertion.sessionKeyPattern text = true
  <-> Spec.matchesSessionKeyFormat text.
Proof.
  unfold RegExp.test, Spec.matchesSessionKeyFormat, Spec.sessionKeyFormat.
  generalize (list_ascii_of_string text) as input. intros input.
  assert (Hsearch : RegExp.search true OpenpgpAssertion.sessionKeyPattern 0 input
                    = RegExp.matcher true OpenpgpAssertion.sessionKeyPattern 0 input
                        (fun _ _ => true)).
  { destruct input; cbn [RegExp.search]; [apply orb_false_r |].
    rewrite search_after_start. apply orb_false_r. }
  rewrite Hsearch. unfold OpenpgpAssertion.sessionKeyPattern, RegExp.digit.
  rewrite matcher_Seq, matcher_AssertStart. cbn [Nat.eqb andb].
  rewrite matcher_Seq, matcher_Repeat_Class.
  split.
  - intros (tag & rest & -> & Htag & Hdigits & Hrest).
    rewrite matcher_Seq, matcher_Char in Hrest.
    destruct rest as [| c rest]; [discriminate |].
    apply andb_true_iff in Hrest as [Hc Hrest].
    apply colon_char in Hc as ->.
    rewrite matcher_Seq in Hrest.
    apply matcher_Repeat_Class in Hrest as (payload & tail & -> & Hlen & Hhex & Hend).
    rewrite matcher_AssertEnd in Hend.
    destruct tail; [| discriminate]. rewrite app_nil_r.
    exists tag, payload. repeat split; try lia.
    + rewrite <- (forallb_ext_eq _ Spec.isDigit tag digit_class). exact Hdigits.
    + rewrite <- (forallb_ext_eq _ Spec.isHexDigit payload hex_class). exact Hhex.
  - intros (tag & payload & -> & Htag & Hdigits & Hlen & Hhex).
    exists tag, (":"%char :: payload). repeat split; try lia.
    + rewrite (forallb_ext_eq _ Spec.isDigit tag digit_class). exact Hdigits.
    + rewrite matcher_Seq, matcher_Char.
      rewrite (proj2 (colon_char ":") eq_refl). cbn [andb].
      rewrite matcher_Seq. apply matcher_Repeat_Class.
      exists payload, []. rewrite app_nil_r, matcher_AssertEnd. repeat split; try lia.
      rewrite (forallb_ext_eq _ Spec.isHexDigit payload hex_class). exact Hhex.
Qed.

End RegExpProperties.

(** The pattern on a tag of two digits with a payload in lower case, on the
    same followed by a line feed, and on a tag of three digits. *)
Example sessionKeyPattern_tests :
  let payload := "901d6ed579aff935f9f157a5198bce48b50ad87345deadba06f42c5d018c78cc" in
  RegExp.test true OpenpgpAssertion.sessionKeyPattern ("09:" ++ payload) = true
  /\ RegExp.test true OpenpgpAssertion.sessionKeyPattern
       ("09:" ++ payload ++ String (ascii_of_nat 10) EmptyString) = false
  /\ RegExp.test true OpenpgpAssertion.sessionKeyPattern ("109:" ++ payload) = false
  /\ RegExp.test false OpenpgpAssertion.sessionKeyPattern ("09:" ++ payload) = false.
Proof. repeat split; vm_compute; reflexivity. Qed.

Section SessionKeyProperties.

Variable openpgp_enums_read_symmetric : Js.Value -> Js.Completion string.

Lemma split_chars_app (sep : ascii) (word rest : list ascii) :
  forallb (fun c => negb (Ascii.eqb c sep)) word = true ->
  StringOps.split_chars sep (word ++ sep :: rest)
  = word :: StringOps.split_chars sep rest.
Proof.
  induction word as [| c word IH]; cbn [forallb app StringOps.split_chars].
  - intros _. rewrite Ascii.eqb_refl. reflexivity.
  - intros [Hc Hword]%andb_true_iff. apply negb_true_iff in Hc.
    rewrite Hc, (IH Hword). reflexivity.
Qed.

Lemma split_chars_none (sep : ascii) (word : list ascii) :
  forallb (fun c => negb (Ascii.eqb c sep)) word = true ->
  StringOps.split_chars sep word = [word].
Proof.
  induction word as [| c word IH]; cbn [forallb StringOps.split_chars]; [reflexivity |].
  intros [Hc Hword]%andb_true_iff. apply negb_true_iff in Hc.
  rewrite Hc, (IH Hword). reflexivity.
Qed.

Lemma hex_digit_not_colon (c : ascii) :
  Spec.isHexDigit c = true -> negb (Ascii.eqb c ":") = true.
Proof. destruct c as [[] [] [] [] [] [] [] []]; (discriminate || reflexivity). Qed.

Lemma digit_is_hex_digit (c : ascii) : Spec.isDigit c = true -> Spec.isHexDigit c = true.
Proof. unfold Spec.isHexDigit. intros ->. reflexivity. Qed.

Lemma forallb_impl {A} (f g : A -> bool) (l : list A) :
  (forall x, f x = true -> g x = true) -> forallb f l = true -> forallb g l = true.
Proof.
  intros H. induction l as [| a l IH]; cbn; [reflexivity |].
  intros [Ha Hl]%andb_true_iff. rewrite (H a Ha), (IH Hl). reflexivity.
Qed.

(** A string of the format splits at its colon into the tag and the
    payload. *)
Lemma split_session_key (text : string) (tag payload : list ascii) :
  list_ascii_of_string text = (tag ++ ":"%char :: payload)%list ->
  Spec.sessionKeyFormat tag payload ->
  StringOps.split ":" text = [string_of_list_ascii tag; string_of_list_ascii payload].
Proof.
  intros Htext (_ & Hdigits & _ & Hhex). unfold StringOps.split.
  rewrite Htext, split_chars_app, split_chars_none; [reflexivity | |].
  - revert Hhex. apply forallb_impl, hex_digit_not_colon.
  - revert Hdigits. apply forallb_impl. intros c Hc.
    apply hex_digit_not_colon, digit_is_hex_digit, Hc.
Qed.

Lemma assertNonEmptyString_string (text message : string) :
  text <> EmptyString ->
  Assertions.assertNonEmptyString (Js.String text) message = Js.Normal tt.
Proof.
  intros Hne. cbn. rewrite bool_decide_eq_false_2 by exact Hne. reflexivity.
Qed.

(** On a string of the format the outcome is the one of reading the
    algorithm tag. *)
Lemma readSessionKeyOrFail_on_format (text : string) (tag payload : list ascii) :
  list_ascii_of_string text = (tag ++ ":"%char :: payload)%list ->
  Spec.sessionKeyFormat tag payload ->
  OpenpgpAssertion.readSessionKeyOrFail openpgp_enums_read_symmetric (Js.String text)
  = match openpgp_enums_read_symmetric (Js.String (string_of_list_ascii tag)) with
    | Js.Normal algorithm =>
        Js.Normal (Js.Object {[ "data" := Js.Uint8Array (Uint8ArrayConvert.hex_bytes payload);
                                "algorithm" := Js.String algorithm ]})
    | Js.Throw cause =>
        Js.Throw (Js.Error "The session key should be a valid openpgp session key."
                           (Some cause))
    end.
Proof.
  intros Htext Hformat. unfold OpenpgpAssertion.readSessionKeyOrFail.
  rewrite assertNonEmptyString_string.
  2:{ intros ->. destruct tag; discriminate. }
  cbn [Js.bind].
  rewrite (proj2 (sessionKeyPattern_format text)) by (exists tag, payload; auto).
  cbn [negb]. rewrite (split_session_key text tag payload Htext Hformat).
  unfold Js.index. cbn [lookup list_lookup].
  destruct (openpgp_enums_read_symmetric (Js.String (string_of_list_ascii tag)));
    cbn [Js.bind Js.try_catch Uint8ArrayConvert.fromHex]; [| reflexivity].
  rewrite list_ascii_of_string_of_list_ascii. reflexivity.
Qed.

(** Off the format a non-empty string is rejected for its format. *)
Lemma readSessionKeyOrFail_off_format (text : string) :
  text <> EmptyString ->
  ~ Spec.matchesSessionKeyFormat text ->
  OpenpgpAssertion.readSessionKeyOrFail openpgp_enums_read_symmetric (Js.String text)
  = Js.Throw (Js.TypeError OpenpgpAssertion.sessionKeyFormatMessage).
Proof.
  intros Hne Hformat. unfold OpenpgpAssertion.readSessionKeyOrFail.
  rewrite assertNonEmptyString_string by exact Hne. cbn [Js.bind].
  destruct (RegExp.test true OpenpgpAssertion.sessionKeyPattern text) eqn:Htest;
    [| reflexivity].
  apply sessionKeyPattern_format in Htest. contradiction.
Qed.

Lemma readSessionKeyOrFail_not_a_string (sessionKey : Js.Value) :
  Spec.isNonEmptyString sessionKey = false ->
  OpenpgpAssertion.readSessionKeyOrFail openpgp_enums_read_symmetric sessionKey
  = Js.Throw (Js.TypeError "The session key should be a string.").
Proof.
  destruct sessionKey as [| | | |text| | | | | |]; try reflexivity.
  cbn [Spec.isNonEmptyString]. intros Hempty%negb_false_iff%String.eqb_eq. subst text.
  reflexivity.
Qed.

(** C2: [readSessionKeyOrFail] returns a session key exactly on the strings
    made of one or two digits, a colon and 64 hexadecimal characters of
    either case whose algorithm tag the library knows.  It throws a format
    error on what is empty or not a string, and on every string that is not
    of that format: a payload of 63 or 65 characters, a character that is
    not hexadecimal, a missing colon. *)
Theorem readSessionKeyOrFail_accepts_exactly_the_format (sessionKey : Js.Value) :
  (forall result,
     OpenpgpAssertion.readSessionKeyOrFail openpgp_enums_read_symmetric sessionKey
       = Js.Normal result
     <-> exists text tag payload algorithm,
           sessionKey = Js.String text
           /\ list_ascii_of_string text = (tag ++ ":"%char :: payload)%list
           /\ Spec.sessionKeyFormat tag payload
           /\ openpgp_enums_read_symmetric (Js.String (string_of_list_ascii tag))
              = Js.Normal algorithm
           /\ result = Js.Object
                {[ "data" := Js.Uint8Array (Uint8ArrayConvert.hex_bytes payload);
                   "algorithm" := Js.String algorithm ]})
  /\ (Spec.isNonEmptyString sessionKey = false ->
        OpenpgpAssertion.readSessionKeyOrFail openpgp_enums_read_symmetric sessionKey
        = Js.Throw (Js.TypeError "The session key should be a string."))
  /\ (forall text,
        sessionKey = Js.String text -> text <> EmptyString ->
        ~ Spec.matchesSessionKeyFormat text ->
        OpenpgpAssertion.readSessionKeyOrFail openpgp_enums_read_symmetric sessionKey
        = Js.Throw (Js.TypeError OpenpgpAssertion.sessionKeyFormatMessage))
  /\ (forall e,
        OpenpgpAssertion.readSessionKeyOrFail openpgp_enums_read_symmetric sessionKey
          = Js.Throw e ->
        Spec.isFormatError e = true).
Proof.
  split; [| split; [| split]].
  - intros result. split.
    + intros Hread.
      destruct (Spec.isNonEmptyString sessionKey) eqn:Hstring.
      2:{ rewrite (readSessionKeyOrFail_not_a_string _ Hstring) in Hread. discriminate. }
      destruct sessionKey as [| | | |text| | | | | |]; try discriminate.
      assert (Hne : text <> EmptyString).
      { intros ->. discriminate. }
      destruct (RegExp.test true OpenpgpAssertion.sessionKeyPattern text) eqn:Htest.
      * apply sessionKeyPattern_format in Htest as (tag & payload & Htext & Hformat).
        rewrite (readSessionKeyOrFail_on_format text tag payload Htext Hformat) in Hread.
        destruct (openpgp_enums_read_symmetric (Js.String (string_of_list_ascii tag)))
          as [algorithm | cause] eqn:Halgorithm; [| discriminate].
        injection Hread as <-. exists text, tag, payload, algorithm. auto.
      * rewrite readSessionKeyOrFail_off_format in Hread; [discriminate | exact Hne |].
        intros Hformat%sessionKeyPattern_format. congruence.
    + intros (text & tag & payload & algorithm & -> & Htext & Hformat & Halgorithm & ->).
      rewrite (readSessionKeyOrFail_on_format text tag payload Htext Hformat), Halgorithm.
      reflexivity.
  - apply readSessionKeyOrFail_not_a_string.
  - intros text -> Hne Hformat. apply readSessionKeyOrFail_off_format; assumption.
  - intros e Hthrow.
    destruct (Spec.isNonEmptyString sessionKey) eqn:Hstring.
    2:{ rewrite (readSessionKeyOrFail_not_a_string _ Hstring) in Hthrow.
        injection Hthrow as <-. reflexivity. }
    destruct sessionKey as [| | | |text| | | | | |]; try discriminate.
    assert (Hne : text <> EmptyString).
    { intros ->. discriminate. }
    destruct (RegExp.test true OpenpgpAssertion.sessionKeyPattern text) eqn:Htest.
    + apply sessionKeyPattern_format in Htest as (tag & payload & Htext & Hformat).
      rewrite (readSessionKeyOrFail_on_format text tag payload Htext Hformat) in Hthrow.
      destruct (openpgp_enums_read_symmetric (Js.String (string_of_list_ascii tag)));
        [discriminate |].
      injection Hthrow as <-. reflexivity.
    + rewrite readSessionKeyOrFail_off_format in Hthrow; [| exact Hne |].
      * injection Hthrow as <-. reflexivity.
      * intros Hformat%sessionKeyPattern_format. congruence.
Qed.

End SessionKeyProperties.

(** The example of the source and strings off the format, read with the
    table of symmetric ciphers reduced to [9], [aes256]. *)
Example readSessionKeyOrFail_examples :
  let read e :=
    match e with
    | Js.String "9" => Js.Normal "aes256"
    | _ => Js.Throw (Js.Error "Invalid enum value." None)
    end in
  let payload := "901D6ED579AFF935F9F157A5198BCE48B50AD87345DEADBA06F42C5D018C78C" in
  let off_format := Js.Throw (Js.TypeError OpenpgpAssertion.sessionKeyFormatMessage) in
  (exists bytes,
     OpenpgpAssertion.readSessionKeyOrFail read (Js.String ("9:" ++ payload ++ "c"))
     = Js.Normal (Js.Object {[ "data" := Js.Uint8Array bytes;
                               "algorithm" := Js.String "aes256" ]})
     /\ length bytes = 32%nat /\ bytes !! 0%nat = Some 144%Z /\ bytes !! 31%nat = Some 204%Z)
  /\ OpenpgpAssertion.readSessionKeyOrFail read (Js.String ("9:" ++ payload)) = off_format
  /\ OpenpgpAssertion.readSessionKeyOrFail read (Js.String ("9:" ++ payload ++ "CC"))
     = off_format
  /\ OpenpgpAssertion.readSessionKeyOrFail read (Js.String ("9:" ++ payload ++ "G"))
     = off_format
  /\ OpenpgpAssertion.readSessionKeyOrFail read (Js.String ("9" ++ payload ++ "C"))
     = off_format
  /\ OpenpgpAssertion.readSessionKeyOrFail read (Js.String ("123:" ++ payload ++ "C"))
     = off_format
  /\ OpenpgpAssertion.readSessionKeyOrFail read (Js.String ("7:" ++ payload ++ "C"))
     = Js.Throw (Js.Error "The session key should be a valid openpgp session key."
                          (Some (Js.Error "Invalid enum value." None))).
Proof.
  cbv zeta. split; [eexists; split; [vm_compute; reflexivity | repeat split] |].
  repeat split; vm_compute; reflexivity.
Qed.

(** The theorem at the session key the source gives as example. *)
Lemma readSessionKeyOrFail_accepts_exactly_the_format_witness :
  let read e :=
    match e with
    | Js.String "9" => Js.Normal "aes256"
    | _ => Js.Throw (Js.Error "Invalid enum value." None)
    end in
  let tag := list_ascii_of_string "9" in
  let payload := list_ascii_of_string
    "901D6ED579AFF935F9F157A5198BCE48B50AD87345DEADBA06F42C5D018C78CC" in
  Spec.sessionKeyFormat tag payload
  /\ OpenpgpAssertion.readSessionKeyOrFail read
       (Js.String "9:901D6ED579AFF935F9F157A5198BCE48B50AD87345DEADBA06F42C5D018C78CC")
     = Js.Normal (Js.Object
         {[ "data" := Js.Uint8Array (Uint8ArrayConvert.hex_bytes payload);
            "algorithm" := Js.String "aes256" ]}).
Proof.
  cbv zeta.
  assert (Hformat : Spec.sessionKeyFormat (list_ascii_of_string "9")
            (list_ascii_of_string
               "901D6ED579AFF935F9F157A5198BCE48B50AD87345DEADBA06F42C5D018C78CC")).
  { repeat split; (reflexivity || (cbn; lia)). }
  split; [exact Hformat |].
  apply (proj1 (readSessionKeyOrFail_accepts_exactly_the_format _ _)).
  exists "9:901D6ED579AFF935F9F157A5198BCE48B50AD87345DEADBA06F42C5D018C78CC",
    (list_ascii_of_string "9"),
    (list_ascii_of_string
       "901D6ED579AFF935F9F157A5198BCE48B50AD87345DEADBA06F42C5D018C78CC"),
    "aes256".
  split; [reflexivity |]. split; [reflexivity |]. split; [exact Hformat |].
  split; reflexivity.
Defined.

(** The theorem at a batch with a malformed entry between two keys. *)
Lemma readAllKeysOrFail_all_or_nothing_witness :
  let readKey armored :=
    match armored with
    | Js.String "public" => Js.Resolved (Js.PublicKey "public")
    | Js.String "private" => Js.Resolved (Js.PrivateKey "private" false)
    | _ => Js.Rejected (Js.Error "Misformed armored text" None)
    end in
  let e := Js.Error "The key should be a valid openpgp armored key string." None in
  OpenpgpAssertion.readKeyOrFail (fun m => m) readKey (Js.String "garbage") = Js.Rejected e
  /\ OpenpgpAssertion.readAllKeysOrFail (fun m => m) readKey
       (Js.Array [Js.String "private"; Js.String "garbage"; Js.String "public"])
     = Js.Rejected e.
Proof.
  cbv zeta. split; [reflexivity |].
  match goal with
  | |- OpenpgpAssertion.readAllKeysOrFail _ ?readKey ?batch = Js.Rejected ?e =>
      apply (proj2 (proj2 (proj2 (proj2
               (readAllKeysOrFail_all_or_nothing (fun m => m) readKey batch) _ eq_refl)))
             (Js.String "garbage") e)
  end.
  - right. left. reflexivity.
  - reflexivity.
Defined.

(** * Further properties of the two modules *)

(** ** What the factories resolve to and how they fail *)

Section FactoryOutcomes.

Variable t : string -> string.
Variable openpgp_readKey : Js.Value -> Js.Promise Js.Key.
Variable openpgp_readMessage : Js.Value -> Js.Promise (list Js.Packet).
Variable openpgp_readCleartextMessage : Js.Value -> Js.Promise string.
Variable openpgp_createMessage : Js.Value -> Js.Promise (list Js.Packet).
Variable openpgp_createCleartextMessage : Js.Value -> Js.Promise string.

Lemma typeof_string_dec (x : Js.Value) :
  {Js.typeof x = "string"} + {Js.typeof x <> "string"}.
Proof. apply string_dec. Qed.

Lemma typeof_is_string (x : Js.Value) :
  Js.typeof x = "string" -> negb (Js.typeof x =? "string")%string = false.
Proof. intros ->. reflexivity. Qed.

(** X1: what [readKeyOrFail] resolves to is the key the parser read from a
    string: it passes [assertKey], and one of [assertPublicKey] and
    [assertPrivateKey]. *)
Theorem readKeyOrFail_resolves_to_a_key (armoredKey result : Js.Value) :
  OpenpgpAssertion.readKeyOrFail t openpgp_readKey armoredKey = Js.Resolved result ->
  Js.typeof armoredKey = "string"
  /\ (exists key, openpgp_readKey armoredKey = Js.Resolved key
                  /\ result = Js.KeyObject key)
  /\ OpenpgpAssertion.assertKey t result = Js.Normal tt
  /\ (OpenpgpAssertion.assertPublicKey t result = Js.Normal tt
      \/ OpenpgpAssertion.assertPrivateKey t result = Js.Normal tt).
Proof.
  unfold OpenpgpAssertion.readKeyOrFail.
  destruct (typeof_string_dec armoredKey) as [Hstring | Hother].
  - rewrite (typeof_is_string _ Hstring).
    destruct (openpgp_readKey armoredKey) as [key | e]; cbn; [| discriminate].
    intros [= <-]. split; [exact Hstring |]. split; [exists key; auto |].
    split; [reflexivity |]. destruct key; [left | right]; reflexivity.
  - rewrite (typeof_not_string _ Hother). discriminate.
Qed.

(** X2: [readKeyOrFail] is rejected exactly when its argument is not a
    string or the parser fails on it, and always with the one error of the
    module: the error of the parser is not passed on. *)
Theorem readKeyOrFail_rejected_iff (armoredKey : Js.Value) (e : Js.Exception) :
  OpenpgpAssertion.readKeyOrFail t openpgp_readKey armoredKey = Js.Rejected e
  <-> e = Js.Error (t "The key should be a valid openpgp armored key string.") None
      /\ (Js.typeof armoredKey <> "string"
          \/ exists cause, openpgp_readKey armoredKey = Js.Rejected cause).
Proof.
  unfold OpenpgpAssertion.readKeyOrFail.
  destruct (typeof_string_dec armoredKey) as [Hstring | Hother].
  - rewrite (typeof_is_string _ Hstring).
    destruct (openpgp_readKey armoredKey) as [key | cause]; cbn; split.
    + discriminate.
    + intros (_ & [Hno | (cause & Hcause)]); [contradiction | discriminate].
    + intros [= <-]. split; [reflexivity | right; exists cause; reflexivity].
    + intros (-> & _). reflexivity.
  - rewrite (typeof_not_string _ Hother). cbn. split.
    + intros [= <-]. split; [reflexivity | left; exact Hother].
    + intros (-> & _). reflexivity.
Qed.

(** X3: what [readMessageOrFail] resolves to passes [assertMessage] and
    neither [assertClearMessage] nor [assertKey]; what
    [readClearMessageOrFail] resolves to passes [assertClearMessage] and
    neither [assertMessage] nor [assertKey]. *)
Theorem read_messages_resolve_to_their_kind (text : Js.Value) :
  (forall result,
     OpenpgpAssertion.readMessageOrFail t openpgp_readMessage text = Js.Resolved result ->
     OpenpgpAssertion.assertMessage t result = Js.Normal tt
     /\ OpenpgpAssertion.assertClearMessage t result
        = Js.Throw (Js.Error (t "The message should be a valid openpgp clear text message.")
                             None)
     /\ OpenpgpAssertion.assertKey t result
        = Js.Throw (Js.Error (t "The key should be a valid openpgp key.") None))
  /\ (forall result,
        OpenpgpAssertion.readClearMessageOrFail t openpgp_readCleartextMessage text
          = Js.Resolved result ->
        OpenpgpAssertion.assertClearMessage t result = Js.Normal tt
        /\ OpenpgpAssertion.assertMessage t result
           = Js.Throw (Js.Error (t "The message should be a valid openpgp message.") None)
        /\ OpenpgpAssertion.assertKey t result
           = Js.Throw (Js.Error (t "The key should be a valid openpgp key.") None)).
Proof.
  unfold OpenpgpAssertion.readMessageOrFail, OpenpgpAssertion.readClearMessageOrFail.
  destruct (negb (Js.typeof text =? "string")%string); cbn.
  - split; intros result; discriminate.
  - split; intros result.
    + destruct (openpgp_readMessage text); cbn; [| discriminate].
      intros [= <-]. repeat split.
    + destruct (openpgp_readCleartextMessage text); cbn; [| discriminate].
      intros [= <-]. repeat split.
Qed.

(** X4: [readMessageOrFail] and [readClearMessageOrFail] are rejected with
    the same two errors: the type error on what is not a string, and, on a
    string the parser fails on, the error of a message that is not valid,
    the one [assertMessage] throws; the error of the parser is not passed
    on. *)
Theorem read_messages_rejected_iff (text : Js.Value) (e : Js.Exception) :
  (OpenpgpAssertion.readMessageOrFail t openpgp_readMessage text = Js.Rejected e
   <-> (Js.typeof text <> "string"
        /\ e = Js.Error (t "The message should be of type string.") None)
       \/ (Js.typeof text = "string"
           /\ (exists cause, openpgp_readMessage text = Js.Rejected cause)
           /\ e = Js.Error (t "The message should be a valid openpgp message.") None))
  /\ (OpenpgpAssertion.readClearMessageOrFail t openpgp_readCleartextMessage text
        = Js.Rejected e
      <-> (Js.typeof text <> "string"
           /\ e = Js.Error (t "The message should be of type string.") None)
          \/ (Js.typeof text = "string"
              /\ (exists cause, openpgp_readCleartextMessage text = Js.Rejected cause)
              /\ e = Js.Error (t "The message should be a valid openpgp message.") None)).
Proof.
  unfold OpenpgpAssertion.readMessageOrFail, OpenpgpAssertion.readClearMessageOrFail.
  destruct (typeof_string_dec text) as [Hstring | Hother].
  - rewrite (typeof_is_string _ Hstring).
    split.
    + destruct (openpgp_readMessage text) as [packets | cause]; cbn; split.
      * discriminate.
      * intros [(Hno & _) | (_ & (cause & Hcause) & _)]; [contradiction | discriminate].
      * intros [= <-]. right. split; [exact Hstring |].
        split; [exists cause; reflexivity | reflexivity].
      * intros [(Hno & _) | (_ & _ & ->)]; [contradiction | reflexivity].
    + destruct (openpgp_readCleartextMessage text) as [cleartext | cause]; cbn; split.
      * discriminate.
      * intros [(Hno & _) | (_ & (cause & Hcause) & _)]; [contradiction | discriminate].
      * intros [= <-]. right. split; [exact Hstring |].
        split; [exists cause; reflexivity | reflexivity].
      * intros [(Hno & _) | (_ & _ & ->)]; [contradiction | reflexivity].
  - rewrite (typeof_not_string _ Hother). cbn.
    split; split.
    + intros [= <-]. left. auto.
    + intros [(_ & ->) | (Hyes & _)]; [reflexivity | contradiction].
    + intros [= <-]. left. auto.
    + intros [(_ & ->) | (Hyes & _)]; [reflexivity | contradiction].
Qed.

(** X5: [createMessageOrFail] and [createCleartextMessageOrFail] do not
    catch: on a string, a rejection of the library is passed on as it is,
    and what the library builds is returned, a message that passes
    [assertMessage] or a cleartext message that passes
    [assertClearMessage]. *)
Theorem create_messages_pass_the_library_outcome (text : Js.Value) :
  Js.typeof text = "string" ->
  OpenpgpAssertion.createMessageOrFail t openpgp_createMessage text
  = match openpgp_createMessage text with
    | Js.Resolved packets => Js.Resolved (Js.Message packets)
    | Js.Rejected cause => Js.Rejected cause
    end
  /\ OpenpgpAssertion.createCleartextMessageOrFail t openpgp_createCleartextMessage text
     = match openpgp_createCleartextMessage text with
       | Js.Resolved cleartext => Js.Resolved (Js.CleartextMessage cleartext)
       | Js.Rejected cause => Js.Rejected cause
       end
  /\ (forall result,
        OpenpgpAssertion.createMessageOrFail t openpgp_createMessage text
          = Js.Resolved result ->
        OpenpgpAssertion.assertMessage t result = Js.Normal tt)
  /\ (forall result,
        OpenpgpAssertion.createCleartextMessageOrFail t openpgp_createCleartextMessage text
          = Js.Resolved result ->
        OpenpgpAssertion.assertClearMessage t result = Js.Normal tt).
Proof.
  intros Hstring.
  unfold OpenpgpAssertion.createMessageOrFail, OpenpgpAssertion.createCleartextMessageOrFail.
  rewrite (typeof_is_string _ Hstring).
  destruct (openpgp_createMessage text), (openpgp_createCleartextMessage text); cbn;
    repeat split; intros result; try discriminate; intros [= <-]; reflexivity.
Qed.

End FactoryOutcomes.

Lemma readKeyOrFail_resolves_to_a_key_witness :
  let readKey armored :=
    match armored with
    | Js.String "private" => Js.Resolved (Js.PrivateKey "private" false)
    | _ => Js.Rejected (Js.Error "Misformed armored text" None)
    end in
  OpenpgpAssertion.readKeyOrFail (fun m => m) readKey (Js.String "private")
    = Js.Resolved (Js.KeyObject (Js.PrivateKey "private" false))
  /\ OpenpgpAssertion.assertKey (fun m => m) (Js.KeyObject (Js.PrivateKey "private" false))
     = Js.Normal tt.
Proof.
  cbv zeta. split; [reflexivity |].
  match goal with
  | |- OpenpgpAssertion.assertKey ?t ?result = _ =>
      apply (readKeyOrFail_resolves_to_a_key t
               (fun armored =>
                  match armored with
                  | Js.String "private" => Js.Resolved (Js.PrivateKey "private" false)
                  | _ => Js.Rejected (Js.Error "Misformed armored text" None)
                  end)
               (Js.String "private") result eq_refl)
  end.
Defined.

Lemma create_messages_pass_the_library_outcome_witness :
  Js.typeof (Js.String "hello") = "string"
  /\ OpenpgpAssertion.createMessageOrFail (fun m => m)
       (fun _ => Js.Rejected (Js.Error "Out of memory" None)) (Js.String "hello")
     = Js.Rejected (Js.Error "Out of memory" None).
Proof.
  split; [reflexivity |].
  apply (create_messages_pass_the_library_outcome (fun m => m)
           (fun _ => Js.Rejected (Js.Error "Out of memory" None))
           (fun _ => Js.Resolved "hello") (Js.String "hello") eq_refl).
Defined.

(** ** The role and the state of a key, the kinds of objects *)

Section KindProperties.

Variable t : string -> string.

Lemma assertPrivateKey_inv (key : Js.Value) :
  OpenpgpAssertion.assertPrivateKey t key = Js.Normal tt ->
  exists armored decrypted, key = Js.KeyObject (Js.PrivateKey armored decrypted).
Proof.
  destruct key as [| | | | | | | |[armored | armored decrypted]| |]; try discriminate.
  intros _. exists armored, decrypted. reflexivity.
Qed.

(** X6: a key that passes [assertPrivateKey] passes exactly one of
    [assertDecryptedPrivateKey] and [assertEncryptedPrivateKey], and the
    other one throws its error on the state of the key. *)
Theorem private_key_is_decrypted_or_encrypted (key : Js.Value) :
  OpenpgpAssertion.assertPrivateKey t key = Js.Normal tt ->
  (OpenpgpAssertion.isDecrypted key = Js.Normal true
   /\ OpenpgpAssertion.assertDecryptedPrivateKey t key = Js.Normal tt
   /\ OpenpgpAssertion.assertEncryptedPrivateKey t key
      = Js.Throw (Js.Error (t "The private key should be encrypted.") None))
  \/ (OpenpgpAssertion.isDecrypted key = Js.Normal false
      /\ OpenpgpAssertion.assertEncryptedPrivateKey t key = Js.Normal tt
      /\ OpenpgpAssertion.assertDecryptedPrivateKey t key
         = Js.Throw (Js.Error (t "The private key should be decrypted.") None)).
Proof.
  intros Hprivate.
  destruct (assertPrivateKey_inv key Hprivate) as (armored & [] & ->);
    [left | right]; repeat split.
Qed.

(** X7: on a value that [assertPrivateKey] rejects, a public key included,
    [assertDecryptedPrivateKey] and [assertEncryptedPrivateKey] throw the
    error of [assertPrivateKey]: the state is looked at after the role, and
    never on what is not a private key. *)
Theorem private_key_role_is_checked_before_state (key : Js.Value) (e : Js.Exception) :
  OpenpgpAssertion.assertPrivateKey t key = Js.Throw e ->
  e = Js.Error (t "The key should be a valid openpgp private key.") None
  /\ OpenpgpAssertion.assertDecryptedPrivateKey t key = Js.Throw e
  /\ OpenpgpAssertion.assertEncryptedPrivateKey t key = Js.Throw e.
Proof.
  intros Hrole.
  unfold OpenpgpAssertion.assertDecryptedPrivateKey,
    OpenpgpAssertion.assertEncryptedPrivateKey.
  rewrite Hrole. cbn [Js.bind]. split; [| split; reflexivity].
  revert Hrole. unfold OpenpgpAssertion.assertPrivateKey.
  destruct (negb (OpenpgpAssertion.instanceof_PrivateKey key)
            || OpenpgpAssertion.instanceof_PrivateKey key
               && negb (OpenpgpAssertion.isPrivate key));
    [intros [= <-]; reflexivity | discriminate].
Qed.

(** X8: keys, messages and cleartext messages are not taken for one
    another: no value passes two of [assertKey], [assertMessage] and
    [assertClearMessage], and what passes [assertPublicKey] or
    [assertPrivateKey] passes [assertKey]. *)
Theorem object_kinds_are_disjoint (value : Js.Value) :
  ~ (OpenpgpAssertion.assertKey t value = Js.Normal tt
     /\ OpenpgpAssertion.assertMessage t value = Js.Normal tt)
  /\ ~ (OpenpgpAssertion.assertKey t value = Js.Normal tt
        /\ OpenpgpAssertion.assertClearMessage t value = Js.Normal tt)
  /\ ~ (OpenpgpAssertion.assertMessage t value = Js.Normal tt
        /\ OpenpgpAssertion.assertClearMessage t value = Js.Normal tt)
  /\ (OpenpgpAssertion.assertPublicKey t value = Js.Normal tt
      \/ OpenpgpAssertion.assertPrivateKey t value = Js.Normal tt ->
      OpenpgpAssertion.assertKey t value = Js.Normal tt).
Proof.
  destruct value as [| | | | | | | |[]| |]; cbn;
    repeat split; try (intros [H1 H2]; discriminate); try reflexivity;
    intros [H | H]; discriminate.
Qed.

Lemma find_app_first {A} (f : A -> bool) (before after : list A) (x : A) :
  forallb (fun y => negb (f y)) before = true -> f x = true ->
  List.find f (before ++ x :: after) = Some x.
Proof.
  intros Hbefore Hx. induction before as [| y before IH]; cbn.
  - rewrite Hx. reflexivity.
  - cbn in Hbefore. apply andb_true_iff in Hbefore as [Hy Hbefore].
    apply negb_true_iff in Hy. rewrite Hy. exact (IH Hbefore).
Qed.

(** X9: [assertDecryptedMessage] decides on the first session-key-encryption
    packet alone: the packets of other kinds before it and all the packets
    after it, session-key-encryption packets still encrypted included, do
    not change the outcome. *)
Theorem assertDecryptedMessage_reads_one_packet
    (before after : list Js.Packet) (packet : Js.Packet) :
  forallb (fun p => negb (Z.eqb (Js.packet_tag p)
                            OpenpgpAssertion.publicKeyEncryptedSessionKey)) before = true ->
  Js.packet_tag packet = OpenpgpAssertion.publicKeyEncryptedSessionKey ->
  OpenpgpAssertion.assertDecryptedMessage t (Js.Message (before ++ packet :: after))
  = match Js.packet_encrypted packet with
    | Some _ => Js.Throw (Js.Error (t "The message should be decrypted.") None)
    | None => Js.Normal tt
    end.
Proof.
  intros Hbefore Htag. unfold OpenpgpAssertion.assertDecryptedMessage.
  cbn [OpenpgpAssertion.assertMessage OpenpgpAssertion.instanceof_Message negb Js.bind
       OpenpgpAssertion.findPacket].
  rewrite (find_app_first _ before after packet Hbefore); [reflexivity |].
  apply Z.eqb_eq, Htag.
Qed.

(** X10: a plain object passes [assertSessionKey] exactly when its [data]
    is a byte sequence and its [algorithm] is the string [aes256]: the
    number of bytes is not looked at, nor are the other properties of the
    object. *)
Theorem assertSessionKey_passes_iff (props : gmap string Js.Value) :
  OpenpgpAssertion.assertSessionKey (Js.Object props) = Js.Normal tt
  <-> (exists bytes, props !! "data" = Some (Js.Uint8Array bytes))
      /\ props !! "algorithm" = Some (Js.String "aes256").
Proof.
  unfold OpenpgpAssertion.assertSessionKey. cbn.
  destruct (props !! "data") as [data |]; cbn.
  2:{ split; [discriminate | intros [[bytes Hbytes] _]; discriminate]. }
  destruct (props !! "algorithm") as [algorithm |]; cbn.
  2:{ rewrite orb_true_r. split; [discriminate | intros [_ Halg]; discriminate]. }
  destruct data; cbn;
    try (split; [discriminate | intros [[bytes' Hbytes] _]; discriminate]).
  destruct algorithm; cbn;
    try (split; [discriminate | intros [_ Halg]; discriminate]).
  case_bool_decide as Hname; cbn; split; try discriminate.
  - intros _. subst. split; [eexists; reflexivity | reflexivity].
  - reflexivity.
  - intros [_ Halg]. congruence.
Qed.

End KindProperties.

Lemma private_key_is_decrypted_or_encrypted_witness :
  OpenpgpAssertion.assertPrivateKey (fun m => m) (Js.KeyObject (Js.PrivateKey "ada" false))
    = Js.Normal tt
  /\ (OpenpgpAssertion.isDecrypted (Js.KeyObject (Js.PrivateKey "ada" false))
        = Js.Normal true
      /\ OpenpgpAssertion.assertDecryptedPrivateKey (fun m => m)
           (Js.KeyObject (Js.PrivateKey "ada" false)) = Js.Normal tt
      /\ OpenpgpAssertion.assertEncryptedPrivateKey (fun m => m)
           (Js.KeyObject (Js.PrivateKey "ada" false))
         = Js.Throw (Js.Error "The private key should be encrypted." None)
      \/ OpenpgpAssertion.isDecrypted (Js.KeyObject (Js.PrivateKey "ada" false))
           = Js.Normal false
         /\ OpenpgpAssertion.assertEncryptedPrivateKey (fun m => m)
              (Js.KeyObject (Js.PrivateKey "ada" false)) = Js.Normal tt
         /\ OpenpgpAssertion.assertDecryptedPrivateKey (fun m => m)
              (Js.KeyObject (Js.PrivateKey "ada" false))
            = Js.Throw (Js.Error "The private key should be decrypted." None)).
Proof.
  split; [reflexivity |].
  apply (private_key_is_decrypted_or_encrypted (fun m => m)
           (Js.KeyObject (Js.PrivateKey "ada" false)) eq_refl).
Defined.

(** A public key given to [assertDecryptedPrivateKey]. *)
Lemma private_key_role_is_checked_before_state_witness :
  OpenpgpAssertion.assertPrivateKey (fun m => m) (Js.KeyObject (Js.PublicKey "ada"))
    = Js.Throw (Js.Error "The key should be a valid openpgp private key." None)
  /\ OpenpgpAssertion.assertDecryptedPrivateKey (fun m => m)
       (Js.KeyObject (Js.PublicKey "ada"))
     = Js.Throw (Js.Error "The key should be a valid openpgp private key." None).
Proof.
  split; [reflexivity |].
  apply (private_key_role_is_checked_before_state (fun m => m)
           (Js.KeyObject (Js.PublicKey "ada")) _ eq_refl).
Defined.

(** A literal data packet, a cleared session key packet, and a session key
    packet that is still encrypted. *)
Lemma assertDecryptedMessage_reads_one_packet_witness :
  forallb (fun p => negb (Z.eqb (Js.packet_tag p)
                            OpenpgpAssertion.publicKeyEncryptedSessionKey))
    [Js.mkPacket 11 (Some [1%Z])] = true
  /\ Js.packet_tag (Js.mkPacket 1 None) = OpenpgpAssertion.publicKeyEncryptedSessionKey
  /\ OpenpgpAssertion.assertDecryptedMessage (fun m => m)
       (Js.Message ([Js.mkPacket 11 (Some [1%Z])]
                    ++ Js.mkPacket 1 None :: [Js.mkPacket 1 (Some [7%Z])]))
     = Js.Normal tt.
Proof.
  split; [reflexivity |]. split; [reflexivity |].
  apply (assertDecryptedMessage_reads_one_packet (fun m => m)
           [Js.mkPacket 11 (Some [1%Z])] [Js.mkPacket 1 (Some [7%Z])]
           (Js.mkPacket 1 None) eq_refl eq_refl).
Defined.

(** ** Session keys read from text *)

Section SessionKeyOutcomes.

Variable openpgp_enums_read_symmetric : Js.Value -> Js.Completion string.

(** What [readSessionKeyOrFail] returns comes from a string of the format
    whose tag the library knows. *)
Lemma readSessionKeyOrFail_normal_inv (sessionKey result : Js.Value) :
  OpenpgpAssertion.readSessionKeyOrFail openpgp_enums_read_symmetric sessionKey
    = Js.Normal result ->
  exists text tag payload algorithm,
    sessionKey = Js.String text
    /\ list_ascii_of_string text = (tag ++ ":"%char :: payload)%list
    /\ Spec.sessionKeyFormat tag payload
    /\ openpgp_enums_read_symmetric (Js.String (string_of_list_ascii tag))
       = Js.Normal algorithm
    /\ result = Js.Object
         {[ "data" := Js.Uint8Array (Uint8ArrayConvert.hex_bytes payload);
            "algorithm" := Js.String algorithm ]}.
Proof.
  intros Hread.
  destruct (Spec.isNonEmptyString sessionKey) eqn:Hstring.
  2:{ rewrite (readSessionKeyOrFail_not_a_string _ _ Hstring) in Hread. discriminate. }
  destruct sessionKey as [| | | |text| | | | | |]; try discriminate.
  assert (Hne : text <> EmptyString).
  { intros ->. discriminate. }
  destruct (RegExp.test true OpenpgpAssertion.sessionKeyPattern text) eqn:Htest.
  - apply sessionKeyPattern_format in Htest as (tag & payload & Htext & Hformat).
    rewrite (readSessionKeyOrFail_on_format _ text tag payload Htext Hformat) in Hread.
    destruct (openpgp_enums_read_symmetric (Js.String (string_of_list_ascii tag)))
      as [algorithm | cause] eqn:Halgorithm; [| discriminate].
    injection Hread as <-. exists text, tag, payload, algorithm. auto.
  - rewrite readSessionKeyOrFail_off_format in Hread; [discriminate | exact Hne |].
    intros Hformat%sessionKeyPattern_format. congruence.
Qed.

(** X11: what [readSessionKeyOrFail] returns is an object with a byte
    sequence as [data], and it passes [assertSessionKey] exactly when the
    algorithm the library read from the tag is [aes256]: a session key of
    another cipher is read and then refused by the assertion. *)
Theorem read_session_key_passes_assertion_iff_aes256 (sessionKey result : Js.Value) :
  OpenpgpAssertion.readSessionKeyOrFail openpgp_enums_read_symmetric sessionKey
    = Js.Normal result ->
  exists bytes algorithm,
    result = Js.Object {[ "data" := Js.Uint8Array bytes;
                          "algorithm" := Js.String algorithm ]}
    /\ (OpenpgpAssertion.assertSessionKey result = Js.Normal tt
        <-> algorithm = "aes256").
Proof.
  intros (text & tag & payload & algorithm & _ & _ & _ & _ & ->)%readSessionKeyOrFail_normal_inv.
  exists (Uint8ArrayConvert.hex_bytes payload), algorithm. split; [reflexivity |].
  unfold OpenpgpAssertion.assertSessionKey.
  rewrite get_data, get_algorithm. cbn.
  case_bool_decide as Hname; cbn; split; congruence.
Qed.

(** X12: a session key is read from strings of 66 or 67 characters only,
    with the colon at index 1 or 2. *)
Theorem read_session_key_text_length (sessionKey result : Js.Value) :
  OpenpgpAssertion.readSessionKeyOrFail openpgp_enums_read_symmetric sessionKey
    = Js.Normal result ->
  exists text,
    sessionKey = Js.String text
    /\ (String.length text = 66%nat \/ String.length text = 67%nat)
    /\ (String.get 1 text = Some ":"%char \/ String.get 2 text = Some ":"%char).
Proof.
  intros (text & tag & payload & algorithm & -> & Htext & Hformat & _)%readSessionKeyOrFail_normal_inv.
  exists text. split; [reflexivity |].
  destruct Hformat as ([Hmin Hmax] & _ & Hlen & _).
  rewrite <- (string_of_list_ascii_of_string text), Htext.
  destruct tag as [| a [| b [| c tag]]]; cbn in Hmin, Hmax; try lia.
  - split; [left | left; reflexivity].
    rewrite <- (list_ascii_of_string_of_list_ascii payload) in Hlen.
    cbn. rewrite <- Hlen. clear.
    induction (string_of_list_ascii payload); cbn; congruence.
  - split; [right | right; reflexivity].
    rewrite <- (list_ascii_of_string_of_list_ascii payload) in Hlen.
    cbn. rewrite <- Hlen. clear.
    induction (string_of_list_ascii payload); cbn; congruence.
Qed.

End SessionKeyOutcomes.

Lemma read_session_key_passes_assertion_iff_aes256_witness :
  let read e :=
    match e with
    | Js.String "7" => Js.Normal "aes128"
    | Js.String "9" => Js.Normal "aes256"
    | _ => Js.Throw (Js.Error "Invalid enum value." None)
    end in
  let text := "7:901D6ED579AFF935F9F157A5198BCE48B50AD87345DEADBA06F42C5D018C78CC" in
  exists result,
    OpenpgpAssertion.readSessionKeyOrFail read (Js.String text) = Js.Normal result
    /\ exists bytes algorithm,
         result = Js.Object {[ "data" := Js.Uint8Array bytes;
                               "algorithm" := Js.String algorithm ]}
         /\ (OpenpgpAssertion.assertSessionKey result = Js.Normal tt
             <-> algorithm = "aes256").
Proof.
  cbv zeta. eexists. split; [vm_compute; reflexivity |].
  match goal with
  | |- exists bytes algorithm, ?result = _ /\ _ =>
      apply (read_session_key_passes_assertion_iff_aes256
               (fun e =>
                  match e with
                  | Js.String "7" => Js.Normal "aes128"
                  | Js.String "9" => Js.Normal "aes256"
                  | _ => Js.Throw (Js.Error "Invalid enum value." None)
                  end)
               (Js.String "7:901D6ED579AFF935F9F157A5198BCE48B50AD87345DEADBA06F42C5D018C78CC")
               result)
  end.
  vm_compute. reflexivity.
Defined.

Lemma read_session_key_text_length_witness :
  let read e :=
    match e with
    | Js.String "9" => Js.Normal "aes256"
    | _ => Js.Throw (Js.Error "Invalid enum value." None)
    end in
  let text := "9:901D6ED579AFF935F9F157A5198BCE48B50AD87345DEADBA06F42C5D018C78CC" in
  exists result,
    OpenpgpAssertion.readSessionKeyOrFail read (Js.String text) = Js.Normal result
    /\ exists text',
         Js.String text = Js.String text'
         /\ (String.length text' = 66%nat \/ String.length text' = 67%nat)
         /\ (String.get 1 text' = Some ":"%char \/ String.get 2 text' = Some ":"%char).
Proof.
  cbv zeta. eexists. split; [vm_compute; reflexivity |].
  eapply (read_session_key_text_length
            (fun e =>
               match e with
               | Js.String "9" => Js.Normal "aes256"
               | _ => Js.Throw (Js.Error "Invalid enum value." None)
               end)
            (Js.String "9:901D6ED579AFF935F9F157A5198BCE48B50AD87345DEADBA06F42C5D018C78CC")).
  vm_compute. reflexivity.
Defined.

(** ** More on the assertions over an array *)

Section BatchOutcomes.

Variable t : string -> string.

(** Either the body accepts every element or some index holds the first
    element it rejects. *)
Lemma first_violation_or_none (body : Js.Value -> Js.Completion unit)
    (keys : list Js.Value) :
  (forall i key, keys !! i = Some key -> body key = Js.Normal tt)
  \/ exists j e, Spec.firstViolation body keys j e.
Proof.
  induction keys as [| first keys IH].
  - left. intros i key Hkey. destruct i; discriminate.
  - destruct (body first) as [[] | e] eqn:Hfirst.
    + destruct IH as [Hall | (j & e & (key & Hkey & Hthrow) & Hbefore)].
      * left. intros [| i] key Hkey; [injection Hkey as <-; exact Hfirst |].
        exact (Hall i key Hkey).
      * right. exists (S j), e. split; [exists key; auto |].
        intros [| i] other Hi Hother; [injection Hother as <-; exact Hfirst |].
        apply (Hbefore i other); [lia | exact Hother].
    + right. exists 0%nat, e. split; [exists first; auto |].
      intros i other Hi. lia.
Qed.

(** A batch assertion returns exactly when the assertion on one key accepts
    every element. *)
Lemma batch_result_normal_iff (b : Spec.Batch) (keys : list Js.Value) :
  snd (Spec.batchAssertion t b (Js.Array keys)) = Js.Normal tt
  <-> Forall (fun key => Spec.elementAssertion t b key = Js.Normal tt) keys.
Proof.
  rewrite Forall_lookup. split.
  - intros Hnormal.
    destruct (first_violation_or_none (Spec.elementAssertion t b) keys)
      as [Hall | (j & e & Hfirst)]; [exact Hall |].
    rewrite batchAssertion_on_array in Hnormal.
    rewrite (for_loop_first_violation _ keys j e Hfirst) in Hnormal;
      [discriminate | lia |].
    destruct Hfirst as [(key & Hkey & _) _]. apply lookup_lt_Some in Hkey. lia.
  - intros Hall. rewrite (batch_assertions_pass t b keys Hall). reflexivity.
Qed.

(** X14: given a value that is not an array, each batch assertion throws
    its own error on the array and calls the assertion on one key on
    nothing. *)
Theorem batch_assertions_require_an_array (keys : Js.Value) :
  Js.isArray keys = false ->
  OpenpgpAssertion.assertKeys t keys
    = ([], Js.Throw (Js.Error (t "The keys should be an array.") None))
  /\ OpenpgpAssertion.assertPublicKeys t keys
     = ([], Js.Throw (Js.Error
              (t "The keys should be an array of valid openpgp public keys.") None))
  /\ OpenpgpAssertion.assertPrivateKeys t keys
     = ([], Js.Throw (Js.Error
              (t "The keys should be an array of valid openpgp private keys.") None))
  /\ OpenpgpAssertion.assertDecryptedPrivateKeys t keys
     = ([], Js.Throw (Js.Error
              (t "The keys should be an array of valid decrypted openpgp private keys.")
              None))
  /\ OpenpgpAssertion.assertEncryptedPrivateKeys t keys
     = ([], Js.Throw (Js.Error
              (t "The keys should be an array of valid encrypted openpgp private keys.")
              None)).
Proof.
  intros Hnot.
  unfold OpenpgpAssertion.assertKeys, OpenpgpAssertion.assertPublicKeys,
    OpenpgpAssertion.assertPrivateKeys, OpenpgpAssertion.assertDecryptedPrivateKeys,
    OpenpgpAssertion.assertEncryptedPrivateKeys.
  rewrite Hnot. repeat split.
Qed.

(** X15: on an array, a batch assertion returns without error exactly when
    the assertion on one key accepts every element; whether it returns or
    throws, the indices it has visited are the first ones of the array, in
    order, and all of them when it returns. *)
Theorem batch_assertions_pass_iff_all_pass (b : Spec.Batch) (keys : list Js.Value) :
  (snd (Spec.batchAssertion t b (Js.Array keys)) = Js.Normal tt
   <-> Forall (fun key => Spec.elementAssertion t b key = Js.Normal tt) keys)
  /\ (exists n, (n <= length keys)%nat
                /\ fst (Spec.batchAssertion t b (Js.Array keys)) = seq 0 n
                /\ (snd (Spec.batchAssertion t b (Js.Array keys)) = Js.Normal tt ->
                    n = length keys)).
Proof.
  split; [apply batch_result_normal_iff |].
  destruct (first_violation_or_none (Spec.elementAssertion t b) keys)
    as [Hall | (j & e & Hfirst)].
  - exists (length keys). rewrite (batch_assertions_pass t b keys Hall). auto.
  - assert (Hj : (j < length keys)%nat).
    { destruct Hfirst as [(key & Hkey & _) _]. apply lookup_lt_Some in Hkey. exact Hkey. }
    exists (S j). rewrite batchAssertion_on_array.
    rewrite (for_loop_first_violation _ keys j e Hfirst) by lia.
    cbn [fst snd]. split; [lia |]. split; [reflexivity | discriminate].
Qed.

Lemma element_assertions_imply (key : Js.Value) :
  (OpenpgpAssertion.assertDecryptedPrivateKey t key = Js.Normal tt ->
   OpenpgpAssertion.assertPrivateKey t key = Js.Normal tt)
  /\ (OpenpgpAssertion.assertEncryptedPrivateKey t key = Js.Normal tt ->
      OpenpgpAssertion.assertPrivateKey t key = Js.Normal tt)
  /\ (OpenpgpAssertion.assertPrivateKey t key = Js.Normal tt ->
      OpenpgpAssertion.assertKey t key = Js.Normal tt)
  /\ (OpenpgpAssertion.assertPublicKey t key = Js.Normal tt ->
      OpenpgpAssertion.assertKey t key = Js.Normal tt).
Proof.
  destruct key as [| | | | | | | |[armored | armored []]| |]; cbn;
    repeat split; (discriminate || reflexivity).
Qed.

(** X16: the batch assertions are ordered as the assertions on one key are:
    an array that passes [assertDecryptedPrivateKeys] or
    [assertEncryptedPrivateKeys] passes [assertPrivateKeys], and an array
    that passes [assertPrivateKeys] or [assertPublicKeys] passes
    [assertKeys]. *)
Theorem batch_assertions_are_ordered (keys : list Js.Value) :
  (snd (OpenpgpAssertion.assertDecryptedPrivateKeys t (Js.Array keys)) = Js.Normal tt ->
   snd (OpenpgpAssertion.assertPrivateKeys t (Js.Array keys)) = Js.Normal tt)
  /\ (snd (OpenpgpAssertion.assertEncryptedPrivateKeys t (Js.Array keys)) = Js.Normal tt ->
      snd (OpenpgpAssertion.assertPrivateKeys t (Js.Array keys)) = Js.Normal tt)
  /\ (snd (OpenpgpAssertion.assertPrivateKeys t (Js.Array keys)) = Js.Normal tt ->
      snd (OpenpgpAssertion.assertKeys t (Js.Array keys)) = Js.Normal tt)
  /\ (snd (OpenpgpAssertion.assertPublicKeys t (Js.Array keys)) = Js.Normal tt ->
      snd (OpenpgpAssertion.assertKeys t (Js.Array keys)) = Js.Normal tt).
Proof.
  pose proof (batch_result_normal_iff Spec.Keys keys) as HK.
  pose proof (batch_result_normal_iff Spec.PublicKeys keys) as HPub.
  pose proof (batch_result_normal_iff Spec.PrivateKeys keys) as HPriv.
  pose proof (batch_result_normal_iff Spec.DecryptedPrivateKeys keys) as HDec.
  pose proof (batch_result_normal_iff Spec.EncryptedPrivateKeys keys) as HEnc.
  cbn [Spec.batchAssertion Spec.elementAssertion] in *.
  rewrite HK, HPub, HPriv, HDec, HEnc.
  repeat split; intros Hall; (eapply Forall_impl; [exact Hall |]);
    intros key; apply element_assertions_imply.
Qed.

(** X17: an array passes both [assertPublicKeys] and [assertPrivateKeys]
    only when it is empty, and likewise both [assertDecryptedPrivateKeys]
    and [assertEncryptedPrivateKeys]. *)
Theorem opposite_batch_assertions_pass_on_empty_only (keys : list Js.Value) :
  (snd (OpenpgpAssertion.assertPublicKeys t (Js.Array keys)) = Js.Normal tt
   /\ snd (OpenpgpAssertion.assertPrivateKeys t (Js.Array keys)) = Js.Normal tt
   <-> keys = [])
  /\ (snd (OpenpgpAssertion.assertDecryptedPrivateKeys t (Js.Array keys)) = Js.Normal tt
      /\ snd (OpenpgpAssertion.assertEncryptedPrivateKeys t (Js.Array keys)) = Js.Normal tt
      <-> keys = []).
Proof.
  pose proof (batch_result_normal_iff Spec.PublicKeys keys) as HPub.
  pose proof (batch_result_normal_iff Spec.PrivateKeys keys) as HPriv.
  pose proof (batch_result_normal_iff Spec.DecryptedPrivateKeys keys) as HDec.
  pose proof (batch_result_normal_iff Spec.EncryptedPrivateKeys keys) as HEnc.
  cbn [Spec.batchAssertion Spec.elementAssertion] in *.
  rewrite HPub, HPriv, HDec, HEnc.
  split; (split; [| intros ->; split; constructor]).
  - intros [Hpublic Hprivate]. destruct keys as [| key keys]; [reflexivity |].
    apply Forall_cons_1 in Hpublic as [Hpublic _].
    apply Forall_cons_1 in Hprivate as [Hprivate _].
    destruct key as [| | | | | | | |[]| |]; discriminate.
  - intros [Hdecrypted Hencrypted]. destruct keys as [| key keys]; [reflexivity |].
    apply Forall_cons_1 in Hdecrypted as [Hdecrypted _].
    apply Forall_cons_1 in Hencrypted as [Hencrypted _].
    destruct key as [| | | | | | | |[armored | armored []]| |]; discriminate.
Qed.

End BatchOutcomes.

(** The string given where an array of keys is expected. *)
Lemma batch_assertions_require_an_array_witness :
  Js.isArray (Js.String "key") = false
  /\ OpenpgpAssertion.assertPrivateKeys (fun m => m) (Js.String "key")
     = ([], Js.Throw (Js.Error
              "The keys should be an array of valid openpgp private keys." None)).
Proof.
  split; [reflexivity |].
  apply (batch_assertions_require_an_array (fun m => m) (Js.String "key") eq_refl).
Defined.

(** ** Reading keys, then asserting or decrypting *)

Section ReadThenUse.

Variable t : string -> string.
Variable openpgp_readKey : Js.Value -> Js.Promise Js.Key.

Lemma readKeyOrFail_resolved_inv (armoredKey result : Js.Value) :
  OpenpgpAssertion.readKeyOrFail t openpgp_readKey armoredKey = Js.Resolved result ->
  Js.typeof armoredKey = "string"
  /\ exists key, openpgp_readKey armoredKey = Js.Resolved key /\ result = Js.KeyObject key.
Proof.
  unfold OpenpgpAssertion.readKeyOrFail.
  destruct (typeof_string_dec armoredKey) as [Hstring | Hother].
  - rewrite (typeof_is_string _ Hstring).
    destruct (openpgp_readKey armoredKey) as [key | e]; cbn; [| discriminate].
    intros [= <-]. split; [exact Hstring | exists key; auto].
  - rewrite (typeof_not_string _ Hother). discriminate.
Qed.

Lemma Promise_all_resolved_inv (ps : list (Js.Promise Js.Value)) (result : Js.Value) :
  Js.Promise_all ps = Js.Resolved result ->
  exists values, result = Js.Array values
                 /\ Forall2 (fun p v => p = Js.Resolved v) ps values.
Proof.
  revert result. induction ps as [| p ps IH]; intros result; cbn.
  - intros [= <-]. exists []. split; [reflexivity | constructor].
  - destruct p as [v | e]; [| discriminate].
    destruct (Js.Promise_all ps) as [rest | e] eqn:Hrest; [| discriminate].
    destruct (IH rest eq_refl) as (values & -> & Hall).
    intros [= <-]. exists (v :: values). split; [reflexivity |].
    constructor; [reflexivity | exact Hall].
Qed.

(** X18: what [readAllKeysOrFail] resolves to is an array with one key for
    each element of the array it was given, and it passes [assertKeys],
    which visits every index. *)
Theorem readAllKeysOrFail_resolves_to_keys (armoredKeys result : Js.Value) :
  OpenpgpAssertion.readAllKeysOrFail t openpgp_readKey armoredKeys = Js.Resolved result ->
  exists items keys,
    armoredKeys = Js.Array items /\ result = Js.Array keys
    /\ length keys = length items
    /\ OpenpgpAssertion.assertKeys t result = (seq 0 (length items), Js.Normal tt).
Proof.
  unfold OpenpgpAssertion.readAllKeysOrFail.
  destruct armoredKeys as [| | | | |items| | | | |]; try discriminate.
  cbn [Js.isArray negb Js.async_return Js.elements].
  intros (keys & -> & Hall)%Promise_all_resolved_inv.
  exists items, keys. split; [reflexivity |]. split; [reflexivity |].
  assert (Hlength : length keys = length items).
  { apply Forall2_length in Hall. rewrite length_map in Hall. auto. }
  split; [exact Hlength |]. rewrite <- Hlength.
  apply (batch_assertions_pass t Spec.Keys keys).
  intros i key Hkey.
  destruct (Forall2_lookup_r _ _ _ _ _ Hall Hkey) as (p & Hp & Hresolved).
  rewrite list_lookup_fmap in Hp.
  destruct (items !! i) as [armored |]; [| discriminate].
  injection Hp as <-.
  apply readKeyOrFail_resolved_inv in Hresolved as (_ & k & _ & ->). reflexivity.
Qed.

Variable assertPassphrase : Js.Value -> Js.Completion unit.

(** X19: [decryptArmoredKey] resolves exactly when its first argument is a
    string the parser reads a key from and the passphrase check accepts the
    passphrase, and then to that key as the parser built it. *)
Theorem decryptArmoredKey_resolves_iff (armoredPrivateKey passphrase result : Js.Value) :
  DecryptPrivateKeyService.decryptArmoredKey t openpgp_readKey assertPassphrase
    armoredPrivateKey passphrase = Js.Resolved result
  <-> Js.typeof armoredPrivateKey = "string"
      /\ (exists key, openpgp_readKey armoredPrivateKey = Js.Resolved key
                      /\ result = Js.KeyObject key)
      /\ assertPassphrase passphrase = Js.Normal tt.
Proof.
  unfold DecryptPrivateKeyService.decryptArmoredKey.
  destruct (OpenpgpAssertion.readKeyOrFail t openpgp_readKey armoredPrivateKey)
    as [privateKey | e] eqn:Hread; cbn.
  - apply readKeyOrFail_resolved_inv in Hread as (Hstring & key & Hkey & ->).
    rewrite decrypt_outcome.
    destruct (assertPassphrase passphrase) as [[] | e]; cbn; split.
    + intros [= <-]. split; [exact Hstring |]. split; [exists key; auto | reflexivity].
    + intros (_ & (key' & Hkey' & ->) & _). congruence.
    + discriminate.
    + intros (_ & _ & Hpass). discriminate.
  - split; [discriminate |].
    intros (Hstring & (key & Hkey & _) & _). revert Hread.
    unfold OpenpgpAssertion.readKeyOrFail.
    rewrite (typeof_is_string _ Hstring), Hkey. discriminate.
Qed.

(** X20: [decryptArmoredKey] does not decrypt and does not look at the role
    of the key: from the armored text of an encrypted private key it
    resolves to a key that is still encrypted, and from the armored text of
    a public key it resolves to that public key. *)
Theorem decryptArmoredKey_keeps_the_key_as_read
    (armoredPrivateKey passphrase : Js.Value) (key : Js.Key) :
  Js.typeof armoredPrivateKey = "string" ->
  openpgp_readKey armoredPrivateKey = Js.Resolved key ->
  assertPassphrase passphrase = Js.Normal tt ->
  DecryptPrivateKeyService.decryptArmoredKey t openpgp_readKey assertPassphrase
    armoredPrivateKey passphrase = Js.Resolved (Js.KeyObject key)
  /\ (forall armored, key = Js.PrivateKey armored false ->
        OpenpgpAssertion.assertEncryptedPrivateKey t (Js.KeyObject key) = Js.Normal tt
        /\ OpenpgpAssertion.assertDecryptedPrivateKey t (Js.KeyObject key)
           = Js.Throw (Js.Error (t "The private key should be decrypted.") None))
  /\ (forall armored, key = Js.PublicKey armored ->
        OpenpgpAssertion.assertPublicKey t (Js.KeyObject key) = Js.Normal tt
        /\ OpenpgpAssertion.assertPrivateKey t (Js.KeyObject key)
           = Js.Throw (Js.Error (t "The key should be a valid openpgp private key.") None)).
Proof.
  intros Hstring Hkey Hpass. split; [| split].
  - unfold DecryptPrivateKeyService.decryptArmoredKey, OpenpgpAssertion.readKeyOrFail.
    rewrite (typeof_is_string _ Hstring), Hkey. cbn.
    rewrite decrypt_outcome, Hpass. reflexivity.
  - intros armored ->. split; reflexivity.
  - intros armored ->. split; reflexivity.
Qed.

(** X21: [decryptArmoredKey] is rejected with the error of [readKeyOrFail]
    when the first argument is not a string or the parser fails on it, and
    otherwise with the error the passphrase check throws, and in no other
    case. *)
Theorem decryptArmoredKey_rejected_iff
    (armoredPrivateKey passphrase : Js.Value) (e : Js.Exception) :
  DecryptPrivateKeyService.decryptArmoredKey t openpgp_readKey assertPassphrase
    armoredPrivateKey passphrase = Js.Rejected e
  <-> (e = Js.Error (t "The key should be a valid openpgp armored key string.") None
       /\ (Js.typeof armoredPrivateKey <> "string"
           \/ exists cause, openpgp_readKey armoredPrivateKey = Js.Rejected cause))
      \/ (Js.typeof armoredPrivateKey = "string"
          /\ (exists key, openpgp_readKey armoredPrivateKey = Js.Resolved key)
          /\ assertPassphrase passphrase = Js.Throw e).
Proof.
  unfold DecryptPrivateKeyService.decryptArmoredKey, OpenpgpAssertion.readKeyOrFail.
  destruct (typeof_string_dec armoredPrivateKey) as [Hstring | Hother].
  - rewrite (typeof_is_string _ Hstring).
    destruct (openpgp_readKey armoredPrivateKey) as [key | cause]; cbn.
    + rewrite decrypt_outcome.
      destruct (assertPassphrase passphrase) as [[] | e']; cbn; split.
      * discriminate.
      * intros [(_ & [Hno | (cause & Hcause)]) | (_ & _ & Hpass)];
          [contradiction | discriminate | discriminate].
      * intros [= <-]. right. split; [exact Hstring |].
        split; [exists key; reflexivity | reflexivity].
      * intros [(_ & [Hno | (cause & Hcause)]) | (_ & _ & Hpass)];
          [contradiction | discriminate | congruence].
    + split.
      * intros [= <-]. left. split; [reflexivity | right; exists cause; reflexivity].
      * intros [(-> & _) | (_ & (key & Hkey) & _)]; [reflexivity | discriminate].
  - rewrite (typeof_not_string _ Hother). cbn. split.
    + intros [= <-]. left. split; [reflexivity | left; exact Hother].
    + intros [(-> & _) | (Hyes & _)]; [reflexivity | contradiction].
Qed.

End ReadThenUse.

Lemma readAllKeysOrFail_resolves_to_keys_witness :
  let readKey armored :=
    match armored with
    | Js.String "public" => Js.Resolved (Js.PublicKey "public")
    | Js.String "private" => Js.Resolved (Js.PrivateKey "private" false)
    | _ => Js.Rejected (Js.Error "Misformed armored text" None)
    end in
  let armoredKeys := Js.Array [Js.String "private"; Js.String "public"] in
  let keys := Js.Array [Js.KeyObject (Js.PrivateKey "private" false);
                        Js.KeyObject (Js.PublicKey "public")] in
  OpenpgpAssertion.readAllKeysOrFail (fun m => m) readKey armoredKeys = Js.Resolved keys
  /\ exists items keys',
       armoredKeys = Js.Array items /\ keys = Js.Array keys'
       /\ length keys' = length items
       /\ OpenpgpAssertion.assertKeys (fun m => m) keys
          = (seq 0 (length items), Js.Normal tt).
Proof.
  cbv zeta. split; [reflexivity |].
  apply (readAllKeysOrFail_resolves_to_keys (fun m => m)
           (fun armored =>
              match armored with
              | Js.String "public" => Js.Resolved (Js.PublicKey "public")
              | Js.String "private" => Js.Resolved (Js.PrivateKey "private" false)
              | _ => Js.Rejected (Js.Error "Misformed armored text" None)
              end)
           (Js.Array [Js.String "private"; Js.String "public"]) _ eq_refl).
Defined.

(** The armored text of an encrypted private key and a passphrase that is
    not the one of the key. *)
Lemma decryptArmoredKey_keeps_the_key_as_read_witness :
  let readKey armored :=
    match armored with
    | Js.String "private" => Js.Resolved (Js.PrivateKey "private" false)
    | _ => Js.Rejected (Js.Error "Misformed armored text" None)
    end in
  Js.typeof (Js.String "private") = "string"
  /\ readKey (Js.String "private") = Js.Resolved (Js.PrivateKey "private" false)
  /\ Assertions.assertPassphrase (Js.String "wrong passphrase") = Js.Normal tt
  /\ DecryptPrivateKeyService.decryptArmoredKey (fun m => m) readKey
       Assertions.assertPassphrase (Js.String "private") (Js.String "wrong passphrase")
     = Js.Resolved (Js.KeyObject (Js.PrivateKey "private" false)).
Proof.
  cbv zeta. do 3 (split; [reflexivity |]).
  apply (decryptArmoredKey_keeps_the_key_as_read (fun m => m)
           (fun armored =>
              match armored with
              | Js.String "private" => Js.Resolved (Js.PrivateKey "private" false)
              | _ => Js.Rejected (Js.Error "Misformed armored text" None)
              end)
           Assertions.assertPassphrase (Js.String "private") (Js.String "wrong passphrase")
           (Js.PrivateKey "private" false) eq_refl eq_refl eq_refl).
Defined.

Section SessionKeyCause.

Variable openpgp_enums_read_symmetric : Js.Value -> Js.Completion string.

(** X22: on a string of the session key format, [readSessionKeyOrFail]
    throws exactly when the library does not know the algorithm tag, and
    the error it throws then carries the error of the library as its
    cause. *)
Theorem readSessionKeyOrFail_keeps_the_cause (text : string) (tag payload : list ascii)
    (e : Js.Exception) :
  list_ascii_of_string text = (tag ++ ":"%char :: payload)%list ->
  Spec.sessionKeyFormat tag payload ->
  OpenpgpAssertion.readSessionKeyOrFail openpgp_enums_read_symmetric (Js.String text)
    = Js.Throw e
  <-> exists cause,
        openpgp_enums_read_symmetric (Js.String (string_of_list_ascii tag)) = Js.Throw cause
        /\ e = Js.Error "The session key should be a valid openpgp session key."
                        (Some cause).
Proof.
  intros Htext Hformat.
  rewrite (readSessionKeyOrFail_on_format _ text tag payload Htext Hformat).
  destruct (openpgp_enums_read_symmetric (Js.String (string_of_list_ascii tag)))
    as [algorithm | cause]; split.
  - discriminate.
  - intros (cause & Hcause & _). discriminate.
  - intros [= <-]. exists cause. auto.
  - intros (cause' & [= <-] & ->). reflexivity.
Qed.

End SessionKeyCause.

(** A tag of two digits that the table of ciphers does not hold. *)
Lemma readSessionKeyOrFail_keeps_the_cause_witness :
  let read e :=
    match e with
    | Js.String "9" => Js.Normal "aes256"
    | _ => Js.Throw (Js.Error "Invalid enum value." None)
    end in
  let tag := list_ascii_of_string "09" in
  let payload := list_ascii_of_string
    "901D6ED579AFF935F9F157A5198BCE48B50AD87345DEADBA06F42C5D018C78CC" in
  Spec.sessionKeyFormat tag payload
  /\ OpenpgpAssertion.readSessionKeyOrFail read
       (Js.String "09:901D6ED579AFF935F9F157A5198BCE48B50AD87345DEADBA06F42C5D018C78CC")
     = Js.Throw (Js.Error "The session key should be a valid openpgp session key."
                          (Some (Js.Error "Invalid enum value." None))).
Proof.
  cbv zeta.
  assert (Hformat : Spec.sessionKeyFormat (list_ascii_of_string "09")
            (list_ascii_of_string
               "901D6ED579AFF935F9F157A5198BCE48B50AD87345DEADBA06F42C5D018C78CC")).
  { repeat split; (reflexivity || (cbn; lia)). }
  split; [exact Hformat |].
  apply (proj2 (readSessionKeyOrFail_keeps_the_cause _
                  "09:901D6ED579AFF935F9F157A5198BCE48B50AD87345DEADBA06F42C5D018C78CC"
                  (list_ascii_of_string "09")
                  (list_ascii_of_string
                     "901D6ED579AFF935F9F157A5198BCE48B50AD87345DEADBA06F42C5D018C78CC")
                  _ eq_refl Hformat)).
  exists (Js.Error "Invalid enum value." None). split; reflexivity.
Defined.
